(** * antsibull.tagging: release tags of collections

    A shallow embedding of [src/antsibull/tagging.py] and the properties of
    its tag normalizer, remote tag fetcher, per-collection resolver and
    validator.

    Conventions of the embedding.
    - A Python [str] is a [string]; each [ascii] stands for the code point of
      the same number, so the model covers texts whose code points are below
      256.  [bytes] objects are [string]s too.
    - [None]-able values are [option]s; Python's truth test on them is
      [truthy].
    - A function that can raise returns a [result]; the exceptions are [exn].
    - Log calls and the spawned process are recorded in a trace of [event]s.
    - Objects that are mutated in place live in a [heap]; the validator runs
      in a state-and-error monad over it. *)

From Stdlib Require Import ZArith Ascii String.
From stdpp Require Import base option list gmap strings.

Local Open Scope Z_scope.
Local Open Scope list_scope.
Local Open Scope stdpp_scope.

(** ** Python strings *)

Module Py.

Definition LF : ascii := "010"%char.
Definition CR : ascii := "013"%char.
Definition TAB : ascii := "009"%char.
Definition SQUOTE : ascii := "039"%char.
Definition DQUOTE : ascii := "034"%char.
Definition BACKSLASH : ascii := "092"%char.

Definition chr (c : ascii) : string := String c EmptyString.

(** [x in s] for a character [x] and a string [s]. *)
Fixpoint contains (c : ascii) (s : string) : bool :=
  match s with
  | EmptyString => false
  | String d s' => Ascii.eqb c d || contains c s'
  end.

(** Python's truth test on [str | None]: [None] and [''] are false. *)
Definition truthy (o : option string) : bool :=
  match o with
  | None => false
  | Some EmptyString => false
  | Some (String _ _) => true
  end.

Definition hex_digit (n : N) : ascii :=
  if (n <? 10)%N then ascii_of_N (48 + n) else ascii_of_N (87 + n).

(** The escape [\xhh] of [repr]. *)
Definition hex_escape (c : ascii) : string :=
  let n := N_of_ascii c in
  String BACKSLASH (String "x" (String (hex_digit (n / 16)) (chr (hex_digit (n mod 16))))).

(** [str.isprintable] on one code point below 256: the C0 and C1 controls,
    DEL, the no-break space and the soft hyphen are not printable. *)
Definition printable (c : ascii) : bool :=
  let n := N_of_ascii c in
  ((32 <=? n) && (n <? 127) || (161 <=? n) && negb (n =? 173))%N.

Definition repr_char (quote c : ascii) : string :=
  if Ascii.eqb c quote || Ascii.eqb c BACKSLASH then String BACKSLASH (chr c)
  else if Ascii.eqb c TAB then String BACKSLASH "t"
  else if Ascii.eqb c LF then String BACKSLASH "n"
  else if Ascii.eqb c CR then String BACKSLASH "r"
  else if printable c then chr c
  else hex_escape c.

Fixpoint repr_body (quote : ascii) (s : string) : string :=
  match s with
  | EmptyString => EmptyString
  | String c s' => repr_char quote c +:+ repr_body quote s'
  end.

(** [repr(s)]: single quotes, unless the string has a single quote and no
    double quote. *)
Definition repr (s : string) : string :=
  let quote := if contains SQUOTE s && negb (contains DQUOTE s) then DQUOTE else SQUOTE in
  String quote (repr_body quote s +:+ chr quote).

(** [repr] of a tuple of strings with at least two items. *)
Definition repr_tuple (l : list string) : string :=
  "(" +:+ String.concat ", " (map repr l) +:+ ")".

(** The line boundaries of [str.splitlines] below code point 256. *)
Definition line_boundary (c : ascii) : bool :=
  let n := N_of_ascii c in
  ((10 <=? n) && (n <=? 13) || (28 <=? n) && (n <=? 30) || (n =? 133))%N.

(** [cur] holds the characters of the line being read, last one first. *)
Fixpoint splitlines_from (cur : list ascii) (s : string) : list string :=
  match s with
  | EmptyString =>
      match cur with
      | [] => []
      | _ => [string_of_list_ascii (rev cur)]
      end
  | String c s' =>
      if line_boundary c then
        string_of_list_ascii (rev cur) ::
          (if Ascii.eqb c CR then
             match s' with
             | String d s'' => if Ascii.eqb d LF then splitlines_from [] s''
                               else splitlines_from [] s'
             | EmptyString => splitlines_from [] s'
             end
           else splitlines_from [] s')
      else splitlines_from (c :: cur) s'
  end.

Fixpoint startswith (prefix s : string) : bool :=
  match prefix, s with
  | EmptyString, _ => true
  | String a prefix', String b s' => Ascii.eqb a b && startswith prefix' s'
  | String _ _, EmptyString => false
  end.

(** [needle in s] for two strings. *)
Fixpoint str_in (needle s : string) : bool :=
  startswith needle s ||
  match s with
  | EmptyString => false
  | String _ s' => str_in needle s'
  end.

(** [s.splitlines()] *)
Definition splitlines (s : string) : list string := splitlines_from [] s.

(** [c.isspace()] on one code point below 256. *)
Definition isspace (c : ascii) : bool :=
  let n := N_of_ascii c in
  ((9 <=? n) && (n <=? 13) || (28 <=? n) && (n <=? 32) || (n =? 133) || (n =? 160))%N.

(** [s.lstrip()] *)
Fixpoint lstrip (s : string) : string :=
  match s with
  | EmptyString => EmptyString
  | String c s' => if isspace c then lstrip s' else s
  end.

(** [s.rstrip()] *)
Fixpoint rstrip (s : string) : string :=
  match s with
  | EmptyString => EmptyString
  | String c s' =>
      match rstrip s' with
      | EmptyString => if isspace c then EmptyString else String c EmptyString
      | r => String c r
      end
  end.

(** [s.strip()] *)
Definition strip (s : string) : string := rstrip (lstrip s).

(** What follows [prefix] in [s], when [s] starts with it. *)
Fixpoint after_prefix (prefix s : string) : option string :=
  match prefix, s with
  | EmptyString, _ => Some s
  | String a prefix', String b s' => if Ascii.eqb a b then after_prefix prefix' s' else None
  | String _ _, EmptyString => None
  end.

End Py.

(** ** The fragment of [re] that the module's two patterns use *)

Module Re.

Inductive regex : Type :=
| Bol                          (* ^ *)
| Eol                          (* $ *)
| Any                          (* . *)
| Chr (c : ascii)              (* a literal character *)
| Star (r : regex)             (* r*, greedy *)
| Opt (r : regex)              (* r?, greedy *)
| Group (n : nat) (r : regex)  (* the n-th capturing group *)
| Seq (r1 r2 : regex).

Fixpoint Lit (s : string) (r : regex) : regex :=
  match s with
  | EmptyString => r
  | String c s' => Seq (Chr c) (Lit s' r)
  end.

Fixpoint ngroups (r : regex) : nat :=
  match r with
  | Bol | Eol | Any | Chr _ => 0%nat
  | Star r | Opt r => ngroups r
  | Group n r => Nat.max n (ngroups r)
  | Seq r1 r2 => Nat.max (ngroups r1) (ngroups r2)
  end.

(** The state of the backtracking matcher: the offset reached, the text
    that is left, and the groups captured so far (latest first). *)
Record mstate : Type := MState {
  pos : nat;
  rest : string;
  caps : list (nat * string)
}.

(** [$] without MULTILINE: at the end, or before a newline that ends the
    text. *)
Definition at_eol (s : string) : bool :=
  match s with
  | EmptyString => true
  | String c EmptyString => Ascii.eqb c Py.LF
  | _ => false
  end.

Definition advance (st : mstate) (s' : string) : mstate :=
  MState (S (pos st)) s' (caps st).

(** The text between two states of one run. *)
Definition consumed (st st' : mstate) : string :=
  String.substring 0 (pos st' - pos st) (rest st).

Definition set_cap (n : nat) (st st' : mstate) : mstate :=
  MState (pos st') (rest st') ((n, consumed st st') :: caps st').

(** The matcher in continuation-passing style: [k] is what has to match
    after [r]; [None] makes the matcher backtrack. *)
Fixpoint rmatch {R : Type} (r : regex) (st : mstate) (k : mstate -> option R) : option R :=
  match r with
  | Bol => if Nat.eqb (pos st) 0 then k st else None
  | Eol => if at_eol (rest st) then k st else None
  | Any =>
      match rest st with
      | String c s' => if Ascii.eqb c Py.LF then None else k (advance st s')
      | EmptyString => None
      end
  | Chr c =>
      match rest st with
      | String d s' => if Ascii.eqb c d then k (advance st s') else None
      | EmptyString => None
      end
  | Seq r1 r2 => rmatch r1 st (fun st' => rmatch r2 st' k)
  | Opt r' =>
      match rmatch r' st k with
      | Some res => Some res
      | None => k st
      end
  | Star r' =>
      (fix loop (fuel : nat) (st : mstate) {struct fuel} : option R :=
         match fuel with
         | O => k st
         | S fuel' =>
             match rmatch r' st (fun st' =>
                       if Nat.ltb (pos st) (pos st') then loop fuel' st' else None) with
             | Some res => Some res
             | None => k st
             end
         end) (String.length (rest st)) st
  | Group n r' => rmatch r' st (fun st' => k (set_cap n st st'))
  end.

Fixpoint lookup_cap (n : nat) (c : list (nat * string)) : option string :=
  match c with
  | [] => None
  | (m, s) :: c' => if Nat.eqb n m then Some s else lookup_cap n c'
  end.

(** A compiled pattern: its number of groups and [Pattern.match], which
    gives [Match.groups()] when the pattern matches at the start. *)
Record Pattern : Type := MkPattern {
  groups : nat;
  pmatch : string -> option (list (option string))
}.

Definition exec (r : regex) (s : string) : option (list (nat * string)) :=
  rmatch r (MState 0 s []) (fun st => Some (caps st)).

Definition compile (r : regex) : Pattern :=
  MkPattern (ngroups r)
    (fun s => (fun c => map (fun n => lookup_cap n c) (seq 1 (ngroups r))) <$> exec r s).

(** *** What the proofs say about the matcher *)

(** The loop of [Star], as [rmatch] runs it. *)
Definition star_loop {R : Type} (r' : regex) (k : mstate -> option R)
  : nat -> mstate -> option R :=
  fix loop (fuel : nat) (st : mstate) {struct fuel} : option R :=
    match fuel with
    | O => k st
    | S fuel' =>
        match rmatch r' st (fun st' =>
                  if Nat.ltb (pos st) (pos st') then loop fuel' st' else None) with
        | Some res => Some res
        | None => k st
        end
    end.

(** [.*] read off the text: the longest run first. *)
Fixpoint star_any {R : Type} (p : nat) (s : string) (c : list (nat * string))
    (k : mstate -> option R) : option R :=
  match s with
  | String a s' =>
      if Ascii.eqb a Py.LF then k (MState p s c)
      else match star_any (S p) s' c k with
           | Some res => Some res
           | None => k (MState p s c)
           end
  | EmptyString => k (MState p s c)
  end.

(** The text up to the first newline, and the text from there on. *)
Fixpoint line (s : string) : string :=
  match s with
  | String a s' => if Ascii.eqb a Py.LF then EmptyString else String a (line s')
  | EmptyString => EmptyString
  end.

Fixpoint line_rest (s : string) : string :=
  match s with
  | String a s' => if Ascii.eqb a Py.LF then s else line_rest s'
  | EmptyString => EmptyString
  end.

End Re.

Import Re(Pattern, groups, pmatch).

(** ** Module constants *)

(** The text of the two patterns, as given to [re.compile]. *)
Definition TAG_MATCHER_source : string := "^.*refs/tags/(.*)$".
Definition TAG_VERSION_REGEX_source : string := "^v?(.*)$".

(** The same patterns, parsed. *)
Definition TAG_MATCHER_regex : Re.regex :=
  Re.Seq Re.Bol (Re.Seq (Re.Star Re.Any)
    (Re.Lit "refs/tags/" (Re.Seq (Re.Group 1 (Re.Star Re.Any)) Re.Eol))).

Definition TAG_VERSION_REGEX_regex : Re.regex :=
  Re.Seq Re.Bol (Re.Seq (Re.Opt (Re.Chr "v"))
    (Re.Seq (Re.Group 1 (Re.Star Re.Any)) Re.Eol)).

Definition TAG_MATCHER : Pattern := Re.compile TAG_MATCHER_regex.

Definition TAG_VERSION_REGEX : Pattern := Re.compile TAG_VERSION_REGEX_regex.

(** A tag without one leading [v]. *)
Definition strip_v (t : string) : string :=
  match t with
  | String c t' => if Ascii.eqb c "v" then t' else t
  | EmptyString => t
  end.

Definition starts_with_v (t : string) : bool :=
  match t with
  | String c _ => Ascii.eqb c "v"
  | EmptyString => false
  end.

Fixpoint ends_with_newline (t : string) : bool :=
  match t with
  | EmptyString => false
  | String c EmptyString => Ascii.eqb c Py.LF
  | String _ t' => ends_with_newline t'
  end.

(** ** Exceptions, log records and the trace *)

Inductive exn : Type :=
| IndexError (msg : string)        (* Match.group of a group that does not exist *)
| KeyError (key : string)          (* set.remove of a missing element *)
| TypeError (msg : string)         (* an operation on an object of the wrong kind *)
| UnicodeDecodeError               (* bytes.decode *)
| OSError (msg : string)           (* the process could not be started *)
| OverflowError (msg : string).    (* re.compile of a repeat count that is too large *)

Definition result (A : Type) : Type := exn + A.
Definition Ok {A : Type} (a : A) : result A := inr a.
Definition Raise {A : Type} (e : exn) : result A := inl e.

(** What a call of [re.compile] comes to: the pattern, an [re.error] with
    its text, or an exception of another class (an [OverflowError] for a
    repeat count that is too large). *)
Inductive compiled : Type :=
| Compiled (p : Pattern)
| ReError (err : string)
| CompileRaises (e : exn).

Inductive level : Type := DEBUG | WARNING | ERROR.

Inductive field_value : Type :=
| FStr (s : string)
| FBytes (b : string)
| FInt (n : Z)
| FReError (msg : string).   (* an [re.error], with its text *)

Record log_record : Type := LogRecord {
  log_level : level;
  log_fields : list (string * field_value);
  log_msg : string
}.

Inductive event : Type :=
| EvLog (r : log_record)
| EvSpawn (args : list string) (env : list (string * string)).

(** [mlog = log.fields(mod=__name__)] *)
Definition mlog : list (string * field_value) := [("mod", FStr "antsibull.tagging")].

(** ** Data *)

(** The fields of [CollectionMetadata] (antsibull_core) that are read. *)
Record CollectionMetadata : Type := MkMeta {
  meta_repository : option string;
  meta_tag_version_regex : option string;
  meta_collection_directory : option string
}.

(** [CollectionTagData]; [collection_directory] is [None] when the key is
    not in the dictionary. *)
Record CollectionTagData : Type := MkTagData {
  version : string;
  repository : option string;
  tag : option string;
  collection_directory : option string
}.

(** [data["tag"] = t] *)
Definition set_tag (data : CollectionTagData) (t : string) : CollectionTagData :=
  MkTagData (version data) (repository data) (Some t) (collection_directory data).

(** What [proc.communicate()] and [proc.returncode] give. *)
Record Completed : Type := MkCompleted {
  returncode : Z;
  stdout : string;
  stderr : string
}.

(** One step of the asynchronous generator [_get_tags]: a value it yields,
    or something it does between two yields. *)
Inductive gen_step : Type :=
| GYield (tag : string)
| GDo (e : event).

(** A run of the generator to its end: its steps, and the exception that
    ended it, if one did. *)
Record gen_run : Type := MkRun {
  g_steps : list gen_step;
  g_end : option exn
}.

(** ** Tag Normalizer *)

(** [match.group(1)] *)
Definition group1 (p : Pattern) (m : list (option string)) : result (option string) :=
  if (1 <=? groups p)%nat then Ok (nth 0 m None) else Raise (IndexError "no such group").

Definition _normalize_tag (tag : string) (regex : option Pattern) : result (option string) :=
  let regex := default TAG_VERSION_REGEX regex in
  match pmatch regex tag with
  | Some m => group1 regex m
  | None => Ok (Some tag)
  end.

(** ** Remote Tag Fetcher and Per-Collection Resolver *)

(** The command [_get_tags] runs, and the environment it runs it in. *)
Definition git_args (repository : string) : list string :=
  ["git"; "ls-remote"; "--refs"; "--tags"; repository].

Definition git_env : list (string * string) := [("GIT_TERMINAL_PROMPT", "0")].

Section Resolver.

(** The world outside: [re.compile], [asyncio.create_subprocess_exec]
    followed by [proc.communicate], and [bytes.decode("utf-8")]. *)
Variable re_compile : string -> compiled.
Variable subprocess_exec : list string -> list (string * string) -> result Completed.
Variable decode_utf8 : string -> option string.

(** What the loop of [_get_tags] does with one line of output. *)
Definition tag_of_line (line : string) : gen_step :=
  match pmatch TAG_MATCHER line with
  | Some (Some t :: _) => GYield t
  | _ => GDo (EvLog (LogRecord DEBUG (mlog ++ [("func", FStr "_get_tags")])
                       ("git ls-remote output line skipped: " +:+ line)))
  end.

Definition _get_tags (repository : string) : gen_run :=
  let flog := mlog ++ [("func", FStr "_get_tags")] in
  let args := git_args repository in
  let env := git_env in
  let started :=
    [GDo (EvLog (LogRecord DEBUG flog ("Running " +:+ Py.repr_tuple args)));
     GDo (EvSpawn args env)] in
  match subprocess_exec args env with
  | inl e => MkRun started (Some e)
  | inr proc =>
      let ran := started ++
        [GDo (EvLog (LogRecord DEBUG
                (flog ++ [("stderr", FBytes (stderr proc));
                          ("returncode", FInt (returncode proc))])
                "Ran git ls-remote"))] in
      if negb (returncode proc =? 0) then
        MkRun (ran ++ [GDo (EvLog (LogRecord ERROR flog
                              ("Failed to fetch tags for " +:+ repository)))]) None
      else
        match decode_utf8 (stdout proc) with
        | None => MkRun ran (Some UnicodeDecodeError)
        | Some text =>
            match Py.splitlines text with
            | [] => MkRun (ran ++ [GDo (EvLog (LogRecord WARNING flog
                                      (repository +:+ " does not have any tags")))]) None
            | tags => MkRun (ran ++ map tag_of_line tags) None
            end
        end
  end.

(** The loop [async for tag in _get_tags(repository)] of the resolver over
    a run of the generator: the events it lets happen, and the tag it
    stops at.  After [break] the generator is not resumed. *)
Fixpoint find_tag (version : string) (regex : option Pattern)
    (steps : list gen_step) (fin : option exn) : list event * result (option string) :=
  match steps with
  | [] =>
      match fin with
      | None => ([], Ok None)
      | Some e => ([], Raise e)
      end
  | GDo e :: steps' =>
      let '(tr, r) := find_tag version regex steps' fin in (e :: tr, r)
  | GYield tag :: steps' =>
      match _normalize_tag tag regex with
      | inl e => ([], Raise e)
      | inr v =>
          if bool_decide (v = Some version) then ([], Ok (Some tag))
          else find_tag version regex steps' fin
      end
  end.

Definition _get_collection_tags (version : string) (meta_data : CollectionMetadata)
    (name : string) : list event * result CollectionTagData :=
  let flog := mlog ++ [("func", FStr "_get_collection_tags")] in
  let data :=
    MkTagData version (meta_repository meta_data) None
      (if Py.truthy (meta_collection_directory meta_data)
       then meta_collection_directory meta_data else None) in
  match meta_repository meta_data with
  | None | Some EmptyString =>
      ([EvLog (LogRecord DEBUG flog "'repository' is None. Exitting...")], Ok data)
  | Some repository =>
      (* the loop over the tags, with the pattern that was settled *)
      let fetch (tag_version_regex : option Pattern) :=
        let run := _get_tags repository in
        let found := find_tag version tag_version_regex (g_steps run) (g_end run) in
        (found.1,
         match found.2 with
         | inl e => Raise e
         | inr None => Ok data
         | inr (Some tag) => Ok (set_tag data tag)
         end) in
      if Py.truthy (meta_tag_version_regex meta_data) then
        match re_compile (default EmptyString (meta_tag_version_regex meta_data)) with
        | Compiled tag_version_regex => fetch (Some tag_version_regex)
        | ReError err =>
            (* the f-string formats the local [tag_version_regex], which is
               still [None] when [re.compile] has raised *)
            ([EvLog (LogRecord ERROR
                       (flog ++ [("err", FReError err); ("collection", FStr name)])
                       ("None" +:+ " is an invalid regex"))],
             Ok data)
        | CompileRaises e =>
            (* [except re.error] catches nothing else *)
            ([], Raise e)
        end
      else fetch None
  end.

End Resolver.

(** The sequence a run of the generator yields, and what it does besides. *)
Definition yields (steps : list gen_step) : list string :=
  omap (fun st => match st with GYield t => Some t | GDo _ => None end) steps.

Definition events_of (steps : list gen_step) : list event :=
  omap (fun st => match st with GDo e => Some e | GYield _ => None end) steps.

(** The test [_normalize_tag(tag, regex) == version] of the resolver. *)
Definition tag_matches (version : string) (regex : option Pattern) (tag : string) : bool :=
  match _normalize_tag tag regex with
  | inr v => bool_decide (v = Some version)
  | inl _ => false
  end.

(** The pattern the resolver normalizes with: [Some None] for the default,
    [None] when [re.compile] raises. *)
Definition compiled_regex (re_compile : string -> compiled)
    (meta_data : CollectionMetadata) : option (option Pattern) :=
  if Py.truthy (meta_tag_version_regex meta_data) then
    match re_compile (default EmptyString (meta_tag_version_regex meta_data)) with
    | Compiled p => Some (Some p)
    | ReError _ | CompileRaises _ => None
    end
  else Some None.

(** The exception with which [re.compile] leaves the resolver, when it
    does: the pattern is compiled only for a collection with a repository,
    and [except re.error] lets every other exception through. *)
Definition compile_escapes (re_compile : string -> compiled)
    (meta_data : CollectionMetadata) : option exn :=
  if Py.truthy (meta_repository meta_data) && Py.truthy (meta_tag_version_regex meta_data)
  then
    match re_compile (default EmptyString (meta_tag_version_regex meta_data)) with
    | CompileRaises e => Some e
    | Compiled _ | ReError _ => None
    end
  else None.

(** The pattern has a first group. *)
Definition has_group (regex : option Pattern) : bool :=
  match regex with
  | Some p => (1 <=? groups p)%nat
  | None => true
  end.

(** The [collection_directory] key of the record the resolver builds. *)
Definition directory_of (meta_data : CollectionMetadata) : option string :=
  if Py.truthy (meta_collection_directory meta_data)
  then meta_collection_directory meta_data else None.

Definition is_spawn (e : event) : bool :=
  match e with
  | EvSpawn _ _ => true
  | EvLog _ => false
  end.

(** ** Heap objects *)

(** The collections the validator is given or makes: a set, or a sequence
    (list or tuple). *)
Inductive py_collection : Type :=
| PySet (s : gset string)
| PySeq (l : list string).

Definition loc : Type := nat.

Abbreviation heap := (gmap nat py_collection).

(** The elements of a collection. *)
Definition elems (c : py_collection) : gset string :=
  match c with
  | PySet s => s
  | PySeq l => list_to_set l
  end.

(** Computations that read and write the heap and can raise. *)
Definition M (A : Type) : Type := heap -> result (A * heap).

Definition ret {A : Type} (a : A) : M A := fun h => Ok (a, h).

Definition bind {A B : Type} (m : M A) (f : A -> M B) : M B :=
  fun h =>
    match m h with
    | inl e => Raise e
    | inr (a, h') => f a h'
    end.

Notation "'let*' x := m 'in' k" := (bind m (fun x => k))
  (at level 10, x name, m at level 100, k at level 200).

Definition raise {A : Type} (e : exn) : M A := fun _ => Raise e.

Definition get_set (l : loc) : M (gset string) :=
  fun h =>
    match h !! l with
    | Some (PySet s) => Ok (s, h)
    | _ => Raise (TypeError "not a set")
    end.

(** [set(c)]: a new set object with the elements of the collection at [c]. *)
Definition set_new (c : loc) : M loc :=
  fun h =>
    match h !! c with
    | Some o => let l := fresh (dom h) in Ok (l, <[l := PySet (elems o)]> h)
    | None => Raise (TypeError "not a collection")
    end.

(** [x in s] *)
Definition set_contains (l : loc) (x : string) : M bool :=
  let* s := get_set l in ret (bool_decide (x ∈ s)).

(** [s.remove(x)] *)
Definition set_remove (l : loc) (x : string) : M unit :=
  let* s := get_set l in
  if bool_decide (x ∈ s) then fun h => Ok (tt, <[l := PySet (s ∖ {[x]})]> h)
  else raise (KeyError x).

(** The truth test on a set: it is not empty. *)
Definition set_truthy (l : loc) : M bool :=
  let* s := get_set l in ret (negb (bool_decide (s = ∅))).

(** ** Validator *)

Definition useless_ignore_msg (name version : string) : string :=
  "useless ignore " +:+ Py.repr name +:+ ": " +:+ name +:+ " " +:+ version
    +:+ " is properly tagged".

Definition no_repository_msg (name : string) : string :=
  name +:+ "'s repository is not specified at all in collection-meta.yaml".

Definition not_tagged_msg (name version repository : string) : string :=
  name +:+ " " +:+ version +:+ " is not tagged in " +:+ repository.

Definition invalid_ignore_msg (name : string) : string :=
  "invalid ignore " +:+ Py.repr name +:+ ": " +:+ name +:+ " does not match any collection".

Section Validator.

(** The order in which Python iterates over a set: some enumeration of
    its elements. *)
Variable set_order : gset string -> list string.
Hypothesis set_order_perm : forall s, set_order s ≡ₚ elements s.

(** [for name in s] *)
Definition set_iter (l : loc) : M (list string) :=
  let* s := get_set l in ret (set_order s).

(** The body of the loop over [tag_data.items()]. *)
Definition validate_item (ignore_set : loc) (error_on_useless_ignores : bool)
    (errors : list string) (item : string * CollectionTagData) : M (list string) :=
  let name := item.1 in
  let data := item.2 in
  let version := version data in
  let* ignored := set_contains ignore_set name in
  if ignored then
    let* _ := set_remove ignore_set name in
    if Py.truthy (repository data) && Py.truthy (tag data) && error_on_useless_ignores
    then ret (errors ++ [useless_ignore_msg name version])
    else ret errors
  else if negb (Py.truthy (repository data)) then
    ret (errors ++ [no_repository_msg name])
  else if negb (Py.truthy (tag data)) then
    ret (errors ++ [not_tagged_msg name version (default EmptyString (repository data))])
  else ret errors.

Fixpoint validate_loop (ignore_set : loc) (error_on_useless_ignores : bool)
    (errors : list string) (items : list (string * CollectionTagData)) : M (list string) :=
  match items with
  | [] => ret errors
  | item :: items' =>
      let* errors' := validate_item ignore_set error_on_useless_ignores errors item in
      validate_loop ignore_set error_on_useless_ignores errors' items'
  end.

(** [tag_data] is the dictionary in the order of its items; [ignores] is
    where the caller's collection lives. *)
Definition validate_tags (tag_data : list (string * CollectionTagData)) (ignores : loc)
    (error_on_useless_ignores : bool) : M (list string) :=
  let* ignore_set := set_new ignores in
  let* errors := validate_loop ignore_set error_on_useless_ignores [] tag_data in
  let* non_empty := set_truthy ignore_set in
  if non_empty && error_on_useless_ignores then
    let* names := set_iter ignore_set in
    ret (errors ++ map invalid_ignore_msg names)
  else ret errors.

End Validator.

(** The keys of the dictionary. *)
Definition keys (tag_data : list (string * CollectionTagData)) : gset string :=
  list_to_set tag_data.*1.

(** What the body of the loop adds to [errors] for one item, given the
    working ignore set at that point. *)
Definition item_messages (ignore_set : gset string) (error_on_useless_ignores : bool)
    (name : string) (data : CollectionTagData) : list string :=
  if bool_decide (name ∈ ignore_set) then
    if Py.truthy (repository data) && Py.truthy (tag data) && error_on_useless_ignores
    then [useless_ignore_msg name (version data)] else []
  else if negb (Py.truthy (repository data)) then [no_repository_msg name]
  else if negb (Py.truthy (tag data)) then
    [not_tagged_msg name (version data) (default EmptyString (repository data))]
  else [].

Fixpoint loop_messages (ignore_set : gset string) (error_on_useless_ignores : bool)
    (items : list (string * CollectionTagData)) : list string :=
  match items with
  | [] => []
  | item :: items' =>
      item_messages ignore_set error_on_useless_ignores item.1 item.2 ++
      loop_messages (ignore_set ∖ {[ item.1 ]}) error_on_useless_ignores items'
  end.

(** Characters that [repr] shows as they are between single quotes. *)
Definition plain_char (c : ascii) : bool :=
  Py.printable c && negb (Ascii.eqb c Py.SQUOTE) && negb (Ascii.eqb c Py.BACKSLASH).

Fixpoint plain (s : string) : bool :=
  match s with
  | EmptyString => true
  | String c s' => plain_char c && plain s'
  end.

(** What [_get_tags] always does first and, once the process has ended,
    next; the error and the warning it can end with. *)
Definition running_log (repository : string) : event :=
  EvLog (LogRecord DEBUG (mlog ++ [("func", FStr "_get_tags")])
           ("Running " +:+ Py.repr_tuple (git_args repository))).

Definition ran_log (proc : Completed) : event :=
  EvLog (LogRecord DEBUG
           (mlog ++ [("func", FStr "_get_tags"); ("stderr", FBytes (stderr proc));
                     ("returncode", FInt (returncode proc))])
           "Ran git ls-remote").

Definition no_tags_warning (repository : string) : event :=
  EvLog (LogRecord WARNING (mlog ++ [("func", FStr "_get_tags")])
           (repository +:+ " does not have any tags")).

(** What [TAG_MATCHER] has to find where its [.*] stops: [refs/tags/],
    then the group up to the end of the line. *)
Definition refs_tags_here (st : Re.mstate) : option (list (nat * string)) :=
  match Py.after_prefix "refs/tags/" (Re.rest st) with
  | Some u =>
      if Re.at_eol (Re.line_rest u) then Some ((1%nat, Re.line u) :: Re.caps st) else None
  | None => None
  end.

(** ** Command line *)

(** [s.update(xs)] *)
Definition set_update (l : loc) (xs : list string) : M unit :=
  let* s := get_set l in
  fun h => Ok (tt, <[l := PySet (s ∪ list_to_set xs)]> h).

(** The name a line of the ignores file gives, if it gives one: the
    generator expression of [_get_ignores]. *)
Definition ignore_line (line : string) : option string :=
  if Py.truthy (Some (Py.strip line)) && negb (Py.startswith "#" line)
  then Some (Py.strip line) else None.

(** A text file open for reading, as it behaves when it is iterated: the
    lines it gives and, when reading fails (the bytes do not decode, the
    device fails), the exception that ends the iteration after them. *)
Record TextIO : Type := MkTextIO {
  fp_lines : list string;
  fp_error : option exn
}.

(** The lines an optional file gives, and the exception reading it ends
    with, if there is a file and reading it fails. *)
Definition read_lines (ignore_fp : option TextIO) : list string :=
  match ignore_fp with
  | Some fp => fp_lines fp
  | None => []
  end.

Definition read_error (ignore_fp : option TextIO) : option exn :=
  match ignore_fp with
  | Some fp => fp_error fp
  | None => None
  end.

(** [ignores] is where the caller's collection lives; [ignore_fp] is [None]
    or the file object, which is iterated inside [ignores.update]: an
    exception from reading it leaves the function.  The result is where
    the new set lives. *)
Definition _get_ignores (ignores : loc) (ignore_fp : option TextIO) : M loc :=
  let* ignores := set_new ignores in
  match ignore_fp with
  | Some fp =>
      let* _ := set_update ignores (omap ignore_line (fp_lines fp)) in
      match fp_error fp with
      | Some e => raise e
      | None => ret ignores
      end
  | None => ret ignores
  end.

(** [app_ctx.extra], as the two commands read it. *)
Record Extra : Type := MkExtra {
  extra_ignore : loc;
  extra_ignores_file : option TextIO;
  extra_tags_file : string;
  extra_error_on_useless_ignores : bool
}.

Section Commands.

Variable set_order : gset string -> list string.

(** [load_yaml_file] (antsibull_fileutils) on the file the command is
    documented to take, one that the [validate-tags] subcommand has
    written: the tag data in it, in the order of its items, or the
    exception loading raises.  A file with anything else in it is outside
    this model. *)
Variable load_yaml_file : string -> result (list (string * CollectionTagData)).

(** The lines printed on [sys.stderr], and the value returned. *)
Definition _print_validation_errors (tag_data : list (string * CollectionTagData))
    (ignores : loc) (error_on_useless_ignores : bool) : M (list string * Z) :=
  let* errors := validate_tags set_order tag_data ignores error_on_useless_ignores in
  match errors with
  | [] => ret ([], 0)
  | _ => ret (errors, 1)
  end.

Definition validate_tags_file_command (extra : Extra) : M (list string * Z) :=
  let* ignores := _get_ignores (extra_ignore extra) (extra_ignores_file extra) in
  let* tag_data := (fun h => match load_yaml_file (extra_tags_file extra) with
                             | inl e => Raise e
                             | inr d => Ok (d, h)
                             end) in
  _print_validation_errors tag_data ignores (extra_error_on_useless_ignores extra).

End Commands.

(** A collection passes: it is ignored and, when useless ignores count, not
    properly tagged; or it is not ignored and has its repository and tag. *)
Definition item_passes (ignores : gset string) (error_on_useless_ignores : bool)
    (item : string * CollectionTagData) : bool :=
  let tagged := Py.truthy (repository item.2) && Py.truthy (tag item.2) in
  if bool_decide (item.1 ∈ ignores) then negb (tagged && error_on_useless_ignores)
  else tagged.

(** ** Scenarios *)

Module Scenario.

Definition foo_repository : string := "https://example/foo.git".

(** One line of the output of [git ls-remote --refs --tags]. *)
Definition ls_remote_line (sha tag : string) : string :=
  sha +:+ Py.chr Py.TAB +:+ "refs/tags/" +:+ tag +:+ Py.chr Py.LF.

Definition two_tags : string :=
  ls_remote_line "6f1e0a2" "v1.0.0" +:+ ls_remote_line "9c4d7b8" "v1.2.0".

(** A [git] that prints [out] and exits with status 0. *)
Definition git_prints (out : string)
  : list string -> list (string * string) -> result Completed :=
  fun _ _ => Ok (MkCompleted 0 out EmptyString).

(** A [git] that cannot reach the repository. *)
Definition git_fails : list string -> list (string * string) -> result Completed :=
  fun _ _ => Ok (MkCompleted 128 EmptyString "fatal: repository not found").

(** The outputs above are ASCII: decoding leaves them as they are. *)
Definition decode_ascii (b : string) : option string := Some b.

(** [re.compile] on the patterns of the scenarios. *)
Definition re_compile_table (pattern : string) : compiled :=
  if String.eqb pattern "v.*" then
    Compiled (Re.compile (Re.Seq (Re.Chr "v") (Re.Star Re.Any)))
  else if String.eqb pattern "([0-9.]+" then
    ReError "missing ), unterminated subpattern at position 0"
  else if String.eqb pattern "a{99999999999}" then
    CompileRaises (OverflowError "the repetition number is too large")
  else ReError "not a pattern of the scenarios".

Definition foo_meta : CollectionMetadata := MkMeta (Some foo_repository) None None.

Definition foo_meta_groupless : CollectionMetadata :=
  MkMeta (Some foo_repository) (Some "v.*") None.

Definition foo_meta_unclosed : CollectionMetadata :=
  MkMeta (Some foo_repository) (Some "([0-9.]+") None.

Definition foo_meta_overflow : CollectionMetadata :=
  MkMeta (Some foo_repository) (Some "a{99999999999}") None.

Definition bar_meta : CollectionMetadata := MkMeta None None None.

(** The records of the end-to-end scenarios A, B and C. *)
Definition foo_tagged : CollectionTagData :=
  MkTagData "1.2.0" (Some foo_repository) (Some "v1.2.0") None.

Definition foo_untagged : CollectionTagData :=
  MkTagData "1.2.0" (Some foo_repository) None None.

Definition bar_record : CollectionTagData := MkTagData "2.0.0" None None None.

(** A tags file with scenarios A and C, and a command line for it. *)
Definition load_tags_yaml (path : string) : result (list (string * CollectionTagData)) :=
  if String.eqb path "tags.yaml" then Ok [("foo", foo_tagged); ("bar", bar_record)]
  else Raise (OSError "No such file or directory").

Definition ignore_bar_from_file : Extra :=
  MkExtra 0%nat
    (Some (MkTextIO ["# no repository yet" +:+ Py.chr Py.LF; "bar" +:+ Py.chr Py.LF] None))
    "tags.yaml" true.

(** The same command line with an ignores file that stops decoding after
    its first line. *)
Definition ignores_file_undecodable : Extra :=
  MkExtra 0%nat (Some (MkTextIO ["bar" +:+ Py.chr Py.LF] (Some UnicodeDecodeError)))
    "tags.yaml" true.

(** A heap with the caller's ignore set at location 0. *)
Definition heap_with (ignores : gset string) : heap := {[ 0%nat := PySet ignores ]}.

End Scenario.

(** Does a log record carry the text [s], in its message or in a field? *)
Definition log_mentions (s : string) (r : log_record) : bool :=
  Py.str_in s (log_msg r) ||
  existsb (fun kv => match kv.2 with
                     | FStr t | FBytes t | FReError t => Py.str_in s t
                     | FInt _ => false
                     end) (log_fields r).

(** * Properties *)

(** ** The matcher *)

Module ReFacts.
Import Re.

Lemma rmatch_Star {R : Type} (r' : regex) (st : mstate) (k : mstate -> option R) :
  rmatch (Star r') st k = star_loop r' k (String.length (rest st)) st.
Proof. reflexivity. Qed.

Lemma star_loop_any {R : Type} (k : mstate -> option R) (fuel : nat) :
  forall p s c, (String.length s <= fuel)%nat ->
    star_loop Any k fuel (MState p s c) = star_any p s c k.
Proof.
  induction fuel as [|fuel IH]; intros p s c Hlen.
  - destruct s; [reflexivity | simpl in Hlen; lia].
  - destruct s as [|a s]; [reflexivity|].
    cbn [star_loop rmatch rest pos star_any advance caps].
    fold (@star_loop R Any k).
    destruct (Ascii.eqb a Py.LF); [reflexivity|].
    replace (Nat.ltb p (S p)) with true by (symmetry; apply Nat.ltb_lt; lia).
    change (advance _ s) with (MState (S p) s c).
    rewrite IH by (simpl in Hlen; lia). reflexivity.
Qed.

Lemma rmatch_star_any {R : Type} (st : mstate) (k : mstate -> option R) :
  rmatch (Star Any) st k = star_any (pos st) (rest st) (caps st) k.
Proof. rewrite rmatch_Star. destruct st. apply star_loop_any. simpl. lia. Qed.

Lemma line_app (s : string) : line s +:+ line_rest s = s.
Proof.
  induction s as [|a s IH]; [reflexivity|]. cbn [line line_rest].
  destruct (Ascii.eqb a Py.LF); [reflexivity|].
  change (String a (line s +:+ line_rest s) = String a s). by rewrite IH.
Qed.

Lemma substring_line (s : string) :
  String.substring 0 (String.length (line s)) s = line s.
Proof.
  induction s as [|a s IH]; [reflexivity|]. simpl.
  destruct (Ascii.eqb a Py.LF); simpl; [reflexivity | by rewrite IH].
Qed.

Lemma at_eol_cons (a : ascii) (s : string) :
  Ascii.eqb a Py.LF = false -> at_eol (String a s) = false.
Proof. intros Ha. simpl. destruct s; [exact Ha | reflexivity]. Qed.

(** [.*] followed by something that needs [$]: only the longest run can
    do. *)
Lemma star_any_eol {R : Type} (f : mstate -> R) (s : string) :
  forall p c,
    star_any p s c (fun st => if at_eol (rest st) then Some (f st) else None)
    = if at_eol (line_rest s)
      then Some (f (MState (p + String.length (line s)) (line_rest s) c))
      else None.
Proof.
  induction s as [|a s IH]; intros p c.
  - simpl. by rewrite Nat.add_0_r.
  - cbn [star_any line line_rest].
    destruct (Ascii.eqb a Py.LF) eqn:Ha.
    + cbn [rest String.length]. by rewrite Nat.add_0_r.
    + rewrite IH. cbn [String.length rest].
      replace (p + S (String.length (line s)))%nat
        with (S p + String.length (line s))%nat by lia.
      destruct (at_eol (line_rest s)); [reflexivity|].
      by rewrite at_eol_cons.
Qed.

(** A result of the matcher is a result of its continuation. *)
Lemma rmatch_from_k {R : Type} (r : regex) :
  forall (st : mstate) (k : mstate -> option R) (res : R),
    rmatch r st k = Some res -> exists st', k st' = Some res.
Proof.
  induction r as [| | |c|r IH|r IH|n r IH|r1 IH1 r2 IH2]; intros st k res H.
  - simpl in H. destruct (Nat.eqb _ _); [eauto | discriminate].
  - simpl in H. destruct (at_eol _); [eauto | discriminate].
  - simpl in H. destruct (rest st); [discriminate|].
    destruct (Ascii.eqb _ _); [discriminate | eauto].
  - simpl in H. destruct (rest st); [discriminate|].
    destruct (Ascii.eqb _ _); [eauto | discriminate].
  - rewrite rmatch_Star in H. revert H.
    generalize (String.length (rest st)). intros fuel. revert st.
    induction fuel as [|fuel IHf]; intros st H.
    + simpl in H. eauto.
    + cbn [star_loop] in H. fold (@star_loop R r k) in H.
      destruct (rmatch r st _) eqn:Hr; [|eauto].
      injection H as ->. apply IH in Hr as [st' Hst'].
      destruct (Nat.ltb _ _); [eauto | discriminate].
  - simpl in H. destruct (rmatch r st k) eqn:Hr; [|eauto].
    injection H as ->. eauto.
  - simpl in H. apply IH in H as [st' Hst']. eauto.
  - simpl in H. apply IH1 in H as [st' Hst']. eauto.
Qed.

Lemma rmatch_Seq_inv {R : Type} (r1 r2 : regex) (st : mstate)
    (k : mstate -> option R) (res : R) :
  rmatch (Seq r1 r2) st k = Some res -> exists st', rmatch r2 st' k = Some res.
Proof.
  change (rmatch (Seq r1 r2) st k) with (rmatch r1 st (fun st' => rmatch r2 st' k)).
  apply rmatch_from_k.
Qed.

Lemma rmatch_Group_inv {R : Type} (n : nat) (r : regex) (st : mstate)
    (k : mstate -> option R) (res : R) :
  rmatch (Group n r) st k = Some res -> exists st', k (set_cap n st st') = Some res.
Proof.
  change (rmatch (Group n r) st k) with (rmatch r st (fun st' => k (set_cap n st st'))).
  apply rmatch_from_k.
Qed.

End ReFacts.

(** ** Tag Normalizer *)

Section NormalizerFacts.
Import Re ReFacts.

(** The group around [.*] followed by [$], from any state. *)
Lemma group_star_eol (st : mstate) :
  rmatch (Seq (Group 1 (Star Any)) Eol) st (fun st' => Some (caps st'))
  = if at_eol (line_rest (rest st))
    then Some ((1%nat, line (rest st)) :: caps st)
    else None.
Proof.
  change (rmatch (Seq (Group 1 (Star Any)) Eol) st (fun st' => Some (caps st')))
    with (rmatch (Star Any) st (fun st2 =>
            if at_eol (rest st2) then Some ((1%nat, consumed st st2) :: caps st2)
            else None)).
  rewrite rmatch_star_any.
  rewrite (star_any_eol (fun st2 => (1%nat, consumed st st2) :: caps st2)).
  destruct (at_eol _); [|reflexivity].
  unfold consumed. cbn [pos caps].
  replace (pos st + String.length (line (rest st)) - pos st)%nat
    with (String.length (line (rest st))) by lia.
  by rewrite substring_line.
Qed.

Lemma line_rest_cons (a : ascii) (s : string) :
  Ascii.eqb a Py.LF = false -> line_rest (String a s) = line_rest s.
Proof. intros Ha. simpl. by rewrite Ha. Qed.

Lemma exec_TAG_VERSION_REGEX (t : string) :
  exec TAG_VERSION_REGEX_regex t
  = if at_eol (line_rest (strip_v t))
    then Some [(1%nat, line (strip_v t))]
    else None.
Proof.
  unfold exec, TAG_VERSION_REGEX_regex.
  set (Y := Seq (Group 1 (Star Any)) Eol).
  set (accept := fun st' : mstate => Some (caps st')).
  destruct t as [|a t].
  - change (rmatch (Seq Bol (Seq (Opt (Chr "v")) Y)) (MState 0 EmptyString []) accept)
      with (rmatch Y (MState 0 EmptyString []) accept).
    subst Y accept. by rewrite group_star_eol.
  - change (rmatch (Seq Bol (Seq (Opt (Chr "v")) Y)) (MState 0 (String a t) []) accept)
      with (match (if Ascii.eqb "v" a then rmatch Y (MState 1 t []) accept else None) with
            | Some res => Some res
            | None => rmatch Y (MState 0 (String a t) []) accept
            end).
    subst Y accept. rewrite !group_star_eol. cbn [rest caps strip_v].
    rewrite (Ascii.eqb_sym "v" a).
    destruct (Ascii.eqb a "v") eqn:Ha; [|by destruct (at_eol _)].
    apply Ascii.eqb_eq in Ha as ->.
    rewrite line_rest_cons by reflexivity.
    by destruct (at_eol (line_rest t)).
Qed.

(** The default normalization of every text. *)
Lemma normalize_default (t : string) :
  _normalize_tag t None
  = Ok (Some (if at_eol (line_rest (strip_v t)) then line (strip_v t) else t)).
Proof.
  unfold _normalize_tag. cbn [default TAG_VERSION_REGEX compile pmatch].
  rewrite exec_TAG_VERSION_REGEX.
  by destruct (at_eol _).
Qed.

Lemma line_rest_empty (s : string) : line_rest s = EmptyString -> line s = s.
Proof.
  induction s as [|a s IH]; [reflexivity|]. cbn [line line_rest].
  destruct (Ascii.eqb a Py.LF); [discriminate|].
  intros H. by rewrite IH.
Qed.

Lemma ends_with_newline_line_rest (s : string) :
  line_rest s = Py.chr Py.LF -> ends_with_newline s = true.
Proof.
  induction s as [|a s IH]; [discriminate|].
  cbn [line_rest]. destruct (Ascii.eqb a Py.LF) eqn:Ha.
  - intros [= -> ->]. reflexivity.
  - intros H. specialize (IH H). cbn [ends_with_newline].
    destruct s; [discriminate | exact IH].
Qed.

Lemma at_eol_inv (s : string) :
  at_eol s = true -> s = EmptyString \/ s = Py.chr Py.LF.
Proof.
  destruct s as [|a [|b s]]; simpl; intros H; [by left | | discriminate].
  right. apply Ascii.eqb_eq in H. by subst.
Qed.

Lemma ends_with_newline_strip_v (t : string) :
  ends_with_newline (strip_v t) = true -> ends_with_newline t = true.
Proof.
  destruct t as [|a t]; [done|]. cbn [strip_v].
  destruct (Ascii.eqb a "v"); [|done].
  intros H. cbn [ends_with_newline]. destruct t; [discriminate | exact H].
Qed.

(** Without a newline at its end a text loses its leading [v] at most. *)
Lemma normalize_default_no_final_newline (t : string) :
  ends_with_newline t = false ->
  _normalize_tag t None = Ok (Some (strip_v t)) \/ _normalize_tag t None = Ok (Some t).
Proof.
  intros Ht. rewrite normalize_default.
  destruct (at_eol _) eqn:He; [left | by right].
  apply at_eol_inv in He as [He|He].
  - by rewrite line_rest_empty.
  - apply ends_with_newline_line_rest, ends_with_newline_strip_v in He. congruence.
Qed.

Lemma line_no_newline (s : string) : Py.contains Py.LF (line s) = false.
Proof.
  induction s as [|a s IH]; [reflexivity|]. cbn [line].
  destruct (Ascii.eqb a Py.LF) eqn:Ha; [reflexivity|].
  cbn [Py.contains]. by rewrite Ascii.eqb_sym, Ha, IH.
Qed.

Lemma line_rest_no_newline (s : string) :
  Py.contains Py.LF s = false -> line_rest s = EmptyString.
Proof.
  induction s as [|a s IH]; [reflexivity|]. cbn [Py.contains line_rest].
  rewrite Ascii.eqb_sym. destruct (Ascii.eqb a Py.LF); [discriminate | exact IH].
Qed.

Lemma strip_v_no_newline (t : string) :
  Py.contains Py.LF t = false -> Py.contains Py.LF (strip_v t) = false.
Proof.
  destruct t as [|a t]; [done|]. cbn [strip_v Py.contains].
  destruct (Ascii.eqb a "v"); [|done].
  destruct (Ascii.eqb Py.LF a); [discriminate | done].
Qed.

(** On a text without newlines the default pattern always matches. *)
Lemma normalize_default_no_newline (t : string) :
  Py.contains Py.LF t = false -> _normalize_tag t None = Ok (Some (strip_v t)).
Proof.
  intros Ht. rewrite normalize_default.
  rewrite (line_rest_no_newline (strip_v t)) by by apply strip_v_no_newline.
  cbn [at_eol]. rewrite line_rest_empty; [done|].
  by apply line_rest_no_newline, strip_v_no_newline.
Qed.

Lemma strip_v_fixed (t : string) : starts_with_v t = false -> strip_v t = t.
Proof. destruct t as [|a t]; [done|]. simpl. by intros ->. Qed.

(** Normalizing a result again gives it back, when it has no leading [v]. *)
Lemma normalize_default_idempotent (t r : string) :
  _normalize_tag t None = Ok (Some r) ->
  starts_with_v r = false ->
  _normalize_tag r None = Ok (Some r).
Proof.
  rewrite normalize_default. intros [= Hr] Hv.
  destruct (at_eol _) eqn:He.
  - rewrite normalize_default_no_newline, strip_v_fixed; [done..|].
    subst r. apply line_no_newline.
  - subst r. rewrite normalize_default, He. done.
Qed.

End NormalizerFacts.

(** When [TAG_MATCHER] matches a line, its one group has taken part, and
    what it holds has no newline: the fetcher yields such a string for
    every line that matches. *)
Lemma TAG_MATCHER_group (line : string) (m : list (option string)) :
  pmatch TAG_MATCHER line = Some m ->
  exists t, m = [Some t] /\ Py.contains Py.LF t = false.
Proof.
  unfold TAG_MATCHER, Re.compile, pmatch.
  change (seq 1 (Re.ngroups TAG_MATCHER_regex)) with [1%nat].
  destruct (Re.exec TAG_MATCHER_regex line) as [c|] eqn:Hexec; [|discriminate].
  intros [= <-]. unfold Re.exec, TAG_MATCHER_regex in Hexec. cbn [Re.Lit] in Hexec.
  do 12 (apply ReFacts.rmatch_Seq_inv in Hexec as [? Hexec]).
  rewrite group_star_eol in Hexec.
  destruct (Re.at_eol _); [|discriminate].
  injection Hexec as <-. eexists. split; [reflexivity|]. apply line_no_newline.
Qed.

Lemma tag_of_line_no_newline (line t : string) :
  tag_of_line line = GYield t -> Py.contains Py.LF t = false.
Proof.
  unfold tag_of_line.
  destruct (pmatch TAG_MATCHER line) as [m|] eqn:Hm; [|discriminate].
  apply TAG_MATCHER_group in Hm as (t' & -> & Ht'). by intros [= <-].
Qed.

(** ** The loop of the resolver *)

Lemma yields_yield (t : string) (l : list gen_step) : yields (GYield t :: l) = t :: yields l.
Proof. reflexivity. Qed.

Lemma yields_do (e : event) (l : list gen_step) : yields (GDo e :: l) = yields l.
Proof. reflexivity. Qed.

Lemma events_of_yield (t : string) (l : list gen_step) :
  events_of (GYield t :: l) = events_of l.
Proof. reflexivity. Qed.

Lemma events_of_do (e : event) (l : list gen_step) :
  events_of (GDo e :: l) = e :: events_of l.
Proof. reflexivity. Qed.

Lemma find_tag_yield (version : string) (regex : option Pattern) (t : string)
    (steps : list gen_step) (fin : option exn) (v : option string) :
  _normalize_tag t regex = Ok v ->
  find_tag version regex (GYield t :: steps) fin
  = if tag_matches version regex t then ([], Ok (Some t))
    else find_tag version regex steps fin.
Proof. intros H. unfold tag_matches. cbn [find_tag]. by rewrite H. Qed.

Lemma find_tag_do (version : string) (regex : option Pattern) (e : event)
    (steps : list gen_step) (fin : option exn) :
  find_tag version regex (GDo e :: steps) fin
  = (e :: (find_tag version regex steps fin).1, (find_tag version regex steps fin).2).
Proof. cbn [find_tag]. by destruct (find_tag version regex steps fin). Qed.

Section FindTagFacts.

Variables (version : string) (regex : option Pattern).
Hypothesis Hgroup : has_group regex = true.

Lemma normalize_total (t : string) : exists v, _normalize_tag t regex = Ok v.
Proof.
  unfold _normalize_tag.
  destruct (pmatch _ t); [|eauto].
  unfold group1. destruct regex as [p|]; simpl in *.
  - rewrite Hgroup. eauto.
  - eauto.
Qed.

Lemma find_tag_result (steps : list gen_step) :
  (find_tag version regex steps None).2
  = Ok (find (tag_matches version regex) (yields steps)).
Proof.
  induction steps as [|[t|e] steps IH]; [reflexivity| |].
  - destruct (normalize_total t) as [v Hv].
    rewrite (find_tag_yield _ _ _ _ _ _ Hv), yields_yield. cbn [find].
    destruct (tag_matches version regex t); [reflexivity | exact IH].
  - rewrite find_tag_do, yields_do. exact IH.
Qed.

Lemma find_tag_stops (pre post : list gen_step) (t : string) (fin : option exn) :
  existsb (tag_matches version regex) (yields pre) = false ->
  tag_matches version regex t = true ->
  find_tag version regex (pre ++ GYield t :: post) fin = (events_of pre, Ok (Some t)).
Proof.
  intros Hpre Ht.
  induction pre as [|[t'|e] pre IH].
  - destruct (normalize_total t) as [v Hv].
    cbn [app]. by rewrite (find_tag_yield _ _ _ _ _ _ Hv), Ht.
  - rewrite yields_yield in Hpre. cbn [existsb] in Hpre.
    apply orb_false_iff in Hpre as [Ht' Hpre].
    destruct (normalize_total t') as [v Hv].
    cbn [app]. rewrite (find_tag_yield _ _ _ _ _ _ Hv), Ht', events_of_yield.
    by apply IH.
  - rewrite yields_do in Hpre.
    cbn [app]. rewrite find_tag_do, events_of_do, IH by done. reflexivity.
Qed.

Lemma find_tag_exhausted (steps : list gen_step) :
  find (tag_matches version regex) (yields steps) = None ->
  find_tag version regex steps None = (events_of steps, Ok None).
Proof.
  induction steps as [|[t|e] steps IH]; [reflexivity| |].
  - destruct (normalize_total t) as [v Hv].
    rewrite (find_tag_yield _ _ _ _ _ _ Hv), yields_yield, events_of_yield.
    cbn [find]. destruct (tag_matches version regex t); [discriminate | exact IH].
  - rewrite yields_do, find_tag_do, events_of_do. intros H.
    by rewrite IH.
Qed.

End FindTagFacts.

(** Without a yield the loop runs the generator to its end and finds
    nothing, whatever the pattern. *)
Lemma find_tag_no_yields (version : string) (regex : option Pattern)
    (steps : list gen_step) :
  yields steps = [] ->
  find_tag version regex steps None = (events_of steps, Ok None).
Proof.
  induction steps as [|[t|e] steps IH]; [reflexivity| |].
  - discriminate.
  - rewrite yields_do, find_tag_do, events_of_do. intros H.
    by rewrite IH.
Qed.

Lemma yields_app (l1 l2 : list gen_step) : yields (l1 ++ l2) = yields l1 ++ yields l2.
Proof. apply omap_app. Qed.

Lemma events_of_app (l1 l2 : list gen_step) :
  events_of (l1 ++ l2) = events_of l1 ++ events_of l2.
Proof. apply omap_app. Qed.

(** C7 (as amended).  For every tag [t] that does not end with a newline,
    [_normalize_tag t None] returns a string [r] that is [t] itself or [t]
    without one leading [v], and normalizing [r] again gives [r] whenever
    [r] has no leading [v]. *)
Theorem normalize_strips_one_v (t : string) (Hnl : ends_with_newline t = false) :
  exists r : string,
    _normalize_tag t None = Ok (Some r) /\
    (r = t \/ t = String "v" r) /\
    (starts_with_v r = false -> _normalize_tag r None = Ok (Some r)).
Proof.
  destruct (normalize_default_no_final_newline t Hnl) as [H|H].
  - exists (strip_v t). split; [exact H|]. split.
    + destruct t as [|a t]; [by left|]. cbn [strip_v].
      destruct (Ascii.eqb a "v") eqn:Ha; [right | by left].
      apply Ascii.eqb_eq in Ha. by subst.
    + by apply normalize_default_idempotent with t.
  - exists t. split; [exact H|]. split; [by left|].
    by apply normalize_default_idempotent with t.
Qed.

Lemma normalize_strips_one_v_witness :
  exists r : string,
    _normalize_tag "v1.2.0" None = Ok (Some r) /\
    (r = "v1.2.0" \/ "v1.2.0" = String "v" r) /\
    (starts_with_v r = false -> _normalize_tag r None = Ok (Some r)).
Proof. apply (normalize_strips_one_v "v1.2.0"). reflexivity. Defined.

(** C7 as stated fails on a text that ends with a newline: [$] matches
    before it, so the group leaves the newline out. *)
Lemma normalize_strips_newline_counterexample :
  let t := "1.2.0" +:+ Py.chr Py.LF in
  _normalize_tag t None = Ok (Some "1.2.0") /\
  ~ (exists r : string,
       _normalize_tag t None = Ok (Some r) /\ (r = t \/ t = String "v" r)).
Proof.
  split; [reflexivity|].
  intros (r & Hr & Hor). vm_compute in Hr. injection Hr as <-.
  destruct Hor as [H|H]; discriminate H.
Qed.

(** C8.  For every tag and every pattern, the default one included: when
    the pattern does not match the tag, [_normalize_tag] returns the tag
    unchanged; it does not raise. *)
Theorem normalize_unmatched (tag : string) (regex : option Pattern)
    (Hno : pmatch (default TAG_VERSION_REGEX regex) tag = None) :
  _normalize_tag tag regex = Ok (Some tag).
Proof. unfold _normalize_tag. by rewrite Hno. Qed.

Lemma normalize_unmatched_witness :
  _normalize_tag "release-1.2.0" (Some (Re.compile (Re.Lit "v" (Re.Group 1 (Re.Star Re.Any)))))
  = Ok (Some "release-1.2.0").
Proof. apply normalize_unmatched. reflexivity. Defined.

(** ** Remote Tag Fetcher and Per-Collection Resolver *)

Section ResolverFacts.

Variable re_compile : string -> compiled.
Variable subprocess_exec : list string -> list (string * string) -> result Completed.
Variable decode_utf8 : string -> option string.

Local Abbreviation get_tags := (_get_tags subprocess_exec decode_utf8).
Local Abbreviation resolve := (_get_collection_tags re_compile subprocess_exec decode_utf8).

Lemma truthy_inv (o : option string) :
  Py.truthy o = true -> exists a s, o = Some (String a s).
Proof. destruct o as [[|a s]|]; try discriminate. eauto. Qed.

(** The resolver once the repository is there and the pattern is settled:
    it runs the loop over the generator. *)
Lemma resolve_fetch (version : string) (meta_data : CollectionMetadata) (name r : string)
    (regex : option Pattern) :
  meta_repository meta_data = Some r ->
  Py.truthy (Some r) = true ->
  compiled_regex re_compile meta_data = Some regex ->
  resolve version meta_data name
  = let run := get_tags r in
    let found := find_tag version regex (g_steps run) (g_end run) in
    (found.1,
     match found.2 with
     | inl e => Raise e
     | inr o => Ok (MkTagData version (Some r) o (directory_of meta_data))
     end).
Proof.
  intros Hrepo Hr Hrx. unfold _get_collection_tags, compiled_regex in *.
  rewrite Hrepo. apply truthy_inv in Hr as (a & r' & [= ->]).
  fold (directory_of meta_data). cbv zeta.
  destruct (Py.truthy (meta_tag_version_regex meta_data)).
  - destruct (re_compile _) as [p|err|e]; [|discriminate..].
    injection Hrx as <-.
    destruct (find_tag _ _ _ _) as [tr [e|[t|]]]; reflexivity.
  - injection Hrx as <-.
    destruct (find_tag _ _ _ _) as [tr [e|[t|]]]; reflexivity.
Qed.

(** No tag the fetcher yields has a newline in it. *)
Lemma get_tags_yields_no_newline (repository t : string) :
  t ∈ yields (g_steps (get_tags repository)) -> Py.contains Py.LF t = false.
Proof.
  assert (Hlines : forall lines : list string,
             t ∈ yields (map tag_of_line lines) -> Py.contains Py.LF t = false).
  { induction lines as [|line lines IH]; [by intros ?%elem_of_nil|].
    cbn [map]. destruct (tag_of_line line) as [t'|e] eqn:Hline.
    - rewrite yields_yield. intros [->|Hin]%elem_of_cons; [|by apply IH].
      by apply tag_of_line_no_newline with line.
    - rewrite yields_do. apply IH. }
  unfold _get_tags. cbv zeta.
  destruct (subprocess_exec _ _) as [e|proc]; [by intros ?%elem_of_nil|].
  destruct (negb _); [by intros ?%elem_of_nil|].
  destruct (decode_utf8 _) as [text|]; [|by intros ?%elem_of_nil].
  destruct (Py.splitlines text) as [|line lines] eqn:Hsplit; [by intros ?%elem_of_nil|].
  cbn [g_steps]. rewrite yields_app. intros [Hin|Hin]%elem_of_app.
  - by apply elem_of_nil in Hin.
  - by apply Hlines in Hin.
Qed.

(** C1 (as amended).  For a collection with a non-empty repository and a
    tag-version pattern that is absent or empty (the default is used) or
    compiles to a pattern with a first group, when the fetch runs to its
    end: the record's tag is the first fetched tag whose normalized value
    equals the expected version, the resolver stops consuming the
    generator at that tag, and the tag is absent when no fetched tag
    normalizes to the expected version. *)
Theorem get_collection_tags_first_match (version : string)
    (meta_data : CollectionMetadata) (name r : string) (regex : option Pattern)
    (steps : list gen_step)
    (Hrepo : meta_repository meta_data = Some r)
    (Hr : Py.truthy (Some r) = true)
    (Hrx : compiled_regex re_compile meta_data = Some regex)
    (Hgroup : has_group regex = true)
    (Hrun : get_tags r = MkRun steps None) :
  exists (tr : list event) (d : CollectionTagData),
    resolve version meta_data name = (tr, Ok d) /\
    d = MkTagData version (Some r)
          (find (tag_matches version regex) (yields steps)) (directory_of meta_data) /\
    (forall pre t post,
        steps = pre ++ GYield t :: post ->
        existsb (tag_matches version regex) (yields pre) = false ->
        tag_matches version regex t = true ->
        tag d = Some t /\ tr = events_of pre) /\
    (tag d = None -> tr = events_of steps).
Proof.
  rewrite (resolve_fetch version meta_data name r regex Hrepo Hr Hrx), Hrun.
  cbn [g_steps g_end]. cbn zeta.
  pose proof (find_tag_result version regex Hgroup steps) as Hres.
  destruct (find_tag version regex steps None) as [tr res] eqn:Hfind.
  cbn [fst snd] in *. subst res.
  eexists _, _. split; [reflexivity|]. split; [reflexivity|]. split.
  - intros pre t post -> Hpre Ht.
    rewrite (find_tag_stops version regex Hgroup pre post t None Hpre Ht) in Hfind.
    injection Hfind as <- Hfound. cbn [tag]. split; [|reflexivity].
    congruence.
  - cbn [tag]. intros Hnone.
    rewrite (find_tag_exhausted version regex Hgroup steps Hnone) in Hfind.
    by injection Hfind.
Qed.

(** C2.  A repository is absent when Python's truth test on it fails: it
    is [None], or the empty string.  A collection whose metadata has no
    repository gets a record without a tag, whatever its version, and the
    resolver only logs that it stops: no process is spawned.  Every record
    the resolver returns without a repository has no tag. *)
Theorem get_collection_tags_no_repository (version : string)
    (meta_data : CollectionMetadata) (name : string) :
  (Py.truthy (meta_repository meta_data) = false ->
   resolve version meta_data name
   = ([EvLog (LogRecord DEBUG (mlog ++ [("func", FStr "_get_collection_tags")])
                "'repository' is None. Exitting...")],
      Ok (MkTagData version (meta_repository meta_data) None (directory_of meta_data))) /\
   existsb is_spawn (resolve version meta_data name).1 = false) /\
  (forall tr d, resolve version meta_data name = (tr, Ok d) ->
                Py.truthy (repository d) = false -> tag d = None).
Proof.
  split.
  - intros Hrepo. unfold _get_collection_tags.
    destruct (meta_repository meta_data) as [[|a r]|]; [|discriminate|];
      split; reflexivity.
  - intros tr d Hrun Hd. unfold _get_collection_tags in Hrun. cbv zeta in Hrun.
    destruct (meta_repository meta_data) as [[|a r]|] eqn:Hrepo.
    + by injection Hrun as <- <-.
    + destruct (Py.truthy (meta_tag_version_regex meta_data)).
      * destruct (re_compile _).
        -- destruct (find_tag _ _ _ _) as [tr' [e|[t|]]]; cbn [fst snd] in Hrun;
             [discriminate| |].
           ++ injection Hrun as <- <-. discriminate Hd.
           ++ by injection Hrun as <- <-.
        -- by injection Hrun as <- <-.
        -- discriminate Hrun.
      * destruct (find_tag _ _ _ _) as [tr' [e|[t|]]]; cbn [fst snd] in Hrun;
          [discriminate| |].
        ++ injection Hrun as <- <-. discriminate Hd.
        ++ by injection Hrun as <- <-.
    + by injection Hrun as <- <-.
Qed.

Lemma get_tags_failed (repository : string) (proc : Completed) :
  subprocess_exec (git_args repository) git_env = Ok proc ->
  returncode proc <> 0 ->
  exists before,
    get_tags repository
    = MkRun (before ++
               [GDo (EvLog (LogRecord ERROR (mlog ++ [("func", FStr "_get_tags")])
                              ("Failed to fetch tags for " +:+ repository)))]) None /\
    yields before = [].
Proof.
  intros Hexec Hrc. unfold _get_tags. cbv zeta.
  rewrite Hexec. unfold Ok. cbv iota beta.
  destruct (returncode proc =? 0) eqn:Hz; [apply Z.eqb_eq in Hz; contradiction|].
  cbn [negb]. eexists. split; reflexivity.
Qed.

(** C6.  When [git ls-remote] exits with a non-zero status the fetcher
    yields nothing and ends without an exception, after logging the
    failure as an error; the resolver then returns a record without a tag
    for every collection that has this repository and whose pattern does
    not make [re.compile] raise past [except re.error] (the resolver has
    then raised before any fetch). *)
Theorem get_tags_nonzero_exit (repository : string) (proc : Completed)
    (Hexec : subprocess_exec (git_args repository) git_env = Ok proc)
    (Hrc : returncode proc <> 0) :
  yields (g_steps (get_tags repository)) = [] /\
  g_end (get_tags repository) = None /\
  EvLog (LogRecord ERROR (mlog ++ [("func", FStr "_get_tags")])
           ("Failed to fetch tags for " +:+ repository))
    ∈ events_of (g_steps (get_tags repository)) /\
  (forall version meta_data name,
      meta_repository meta_data = Some repository ->
      compile_escapes re_compile meta_data = None ->
      exists tr,
        resolve version meta_data name
        = (tr, Ok (MkTagData version (Some repository) None (directory_of meta_data)))).
Proof.
  destruct (get_tags_failed repository proc Hexec Hrc) as (before & Hrun & Hbefore).
  rewrite Hrun. cbn [g_steps g_end].
  assert (Hy : yields (before ++
              [GDo (EvLog (LogRecord ERROR (mlog ++ [("func", FStr "_get_tags")])
                             ("Failed to fetch tags for " +:+ repository)))]) = []).
  { by rewrite yields_app, Hbefore. }
  split; [exact Hy|]. split; [reflexivity|]. split.
  - rewrite events_of_app. apply elem_of_app. right. apply list_elem_of_singleton.
    reflexivity.
  - intros version meta_data name Hrepo Hescapes.
    unfold _get_collection_tags. unfold compile_escapes in Hescapes.
    rewrite Hrepo in Hescapes |- *. fold (directory_of meta_data).
    destruct repository as [|a r]; [eexists; reflexivity|]. cbv zeta.
    cbn [Py.truthy andb] in Hescapes.
    destruct (Py.truthy (meta_tag_version_regex meta_data)).
    + destruct (re_compile _); [|eexists; reflexivity|discriminate Hescapes].
      rewrite Hrun. cbn [g_steps g_end]. rewrite find_tag_no_yields by exact Hy.
      eexists; reflexivity.
    + rewrite Hrun. cbn [g_steps g_end]. rewrite find_tag_no_yields by exact Hy.
      eexists; reflexivity.
Qed.

(** What the resolver does when [re.compile] raises: the message it logs
    formats [None], not the pattern. *)
Lemma get_collection_tags_invalid_regex (version : string)
    (meta_data : CollectionMetadata) (name r pattern err : string) :
  meta_repository meta_data = Some r ->
  Py.truthy (Some r) = true ->
  meta_tag_version_regex meta_data = Some pattern ->
  Py.truthy (Some pattern) = true ->
  re_compile pattern = ReError err ->
  resolve version meta_data name
  = ([EvLog (LogRecord ERROR
               (mlog ++ [("func", FStr "_get_collection_tags");
                         ("err", FReError err); ("collection", FStr name)])
               "None is an invalid regex")],
     Ok (MkTagData version (Some r) None (directory_of meta_data))).
Proof.
  intros Hrepo Hr Hpat Hp Herr. unfold _get_collection_tags.
  rewrite Hrepo. apply truthy_inv in Hr as (a & r' & [= ->]).
  rewrite Hpat, Hp. change (default EmptyString (Some pattern)) with pattern.
  rewrite Herr. reflexivity.
Qed.

End ResolverFacts.

(** ** Python's [repr] on plain names *)

Lemma repr_char_plain (c : ascii) :
  plain_char c = true -> Py.repr_char Py.SQUOTE c = Py.chr c.
Proof.
  destruct c as [b0 b1 b2 b3 b4 b5 b6 b7].
  destruct b0, b1, b2, b3, b4, b5, b6, b7; (discriminate || reflexivity).
Qed.

Lemma plain_char_not_quote (c : ascii) :
  plain_char c = true -> Ascii.eqb Py.SQUOTE c = false.
Proof.
  destruct c as [b0 b1 b2 b3 b4 b5 b6 b7].
  destruct b0, b1, b2, b3, b4, b5, b6, b7; (discriminate || reflexivity).
Qed.

Lemma repr_body_plain (s : string) : plain s = true -> Py.repr_body Py.SQUOTE s = s.
Proof.
  induction s as [|c s IH]; [reflexivity|]. cbn [plain Py.repr_body].
  intros [Hc Hs]%andb_true_iff. by rewrite repr_char_plain, IH.
Qed.

Lemma plain_no_quote (s : string) : plain s = true -> Py.contains Py.SQUOTE s = false.
Proof.
  induction s as [|c s IH]; [reflexivity|]. cbn [plain Py.contains].
  intros [Hc Hs]%andb_true_iff. by rewrite plain_char_not_quote, IH.
Qed.

(** A name made of printable ASCII characters other than the single quote
    and the backslash is shown between single quotes, as it is. *)
Lemma repr_plain (s : string) : plain s = true -> Py.repr s = "'" +:+ s +:+ "'".
Proof.
  intros Hs. unfold Py.repr. rewrite plain_no_quote by done.
  cbn [andb]. by rewrite repr_body_plain.
Qed.

Lemma append_assoc (a b c : string) : (a +:+ b) +:+ c = a +:+ (b +:+ c).
Proof.
  induction a as [|x a IH]; [reflexivity|].
  change (String x ((a +:+ b) +:+ c) = String x (a +:+ (b +:+ c))). by rewrite IH.
Qed.

(** Inside a message the [repr] of such a name is the name between single
    quotes. *)
Lemma repr_plain_within (before after name : string) :
  plain name = true ->
  before +:+ Py.repr name +:+ after = before +:+ "'" +:+ name +:+ "'" +:+ after.
Proof.
  intros Hn. rewrite repr_plain by done. f_equal.
  change (String "'" ((name +:+ "'") +:+ after) = String "'" (name +:+ "'" +:+ after)).
  by rewrite append_assoc.
Qed.

(** ** Validator *)

Section HeapFacts.

Lemma bind_Ok {A B : Type} (m : M A) (f : A -> M B) (h h' : heap) (a : A) :
  m h = Ok (a, h') -> bind m f h = f a h'.
Proof. intros H. unfold bind. by rewrite H. Qed.

Lemma get_set_Ok (l : loc) (s : gset string) (h : heap) :
  h !! l = Some (PySet s) -> get_set l h = Ok (s, h).
Proof. intros H. unfold get_set. by rewrite H. Qed.

Lemma set_contains_Ok (l : loc) (x : string) (s : gset string) (h : heap) :
  h !! l = Some (PySet s) -> set_contains l x h = Ok (bool_decide (x ∈ s), h).
Proof. intros H. unfold set_contains. by rewrite (bind_Ok _ _ _ _ _ (get_set_Ok _ _ _ H)). Qed.

Lemma set_remove_Ok (l : loc) (x : string) (s : gset string) (h : heap) :
  h !! l = Some (PySet s) -> x ∈ s ->
  set_remove l x h = Ok (tt, <[l := PySet (s ∖ {[x]})]> h).
Proof.
  intros H Hx. unfold set_remove.
  rewrite (bind_Ok _ _ _ _ _ (get_set_Ok _ _ _ H)).
  by rewrite bool_decide_eq_true_2.
Qed.

Lemma set_truthy_Ok (l : loc) (s : gset string) (h : heap) :
  h !! l = Some (PySet s) -> set_truthy l h = Ok (negb (bool_decide (s = ∅)), h).
Proof. intros H. unfold set_truthy. by rewrite (bind_Ok _ _ _ _ _ (get_set_Ok _ _ _ H)). Qed.

Lemma set_new_Ok (c : loc) (o : py_collection) (h : heap) :
  h !! c = Some o ->
  set_new c h = Ok (fresh (dom h), <[fresh (dom h) := PySet (elems o)]> h).
Proof. intros H. unfold set_new. by rewrite H. Qed.

Lemma fresh_loc_None (h : heap) : h !! fresh (dom h) = None.
Proof. apply not_elem_of_dom, is_fresh. Qed.

End HeapFacts.

Section ValidatorFacts.

Variable set_order : gset string -> list string.
Hypothesis set_order_perm : forall s, set_order s ≡ₚ elements s.

Local Abbreviation validate := (validate_tags set_order).

Lemma set_iter_Ok (l : loc) (s : gset string) (h : heap) :
  h !! l = Some (PySet s) -> set_iter set_order l h = Ok (set_order s, h).
Proof. intros H. unfold set_iter. by rewrite (bind_Ok _ _ _ _ _ (get_set_Ok _ _ _ H)). Qed.

(** The body of the loop, from a heap where the working set is [s]. *)
Lemma validate_item_spec (l : loc) (flag : bool) (errors : list string)
    (name : string) (data : CollectionTagData) (s : gset string) (h : heap) :
  h !! l = Some (PySet s) ->
  validate_item l flag errors (name, data) h
  = Ok (errors ++ item_messages s flag name data, <[l := PySet (s ∖ {[name]})]> h).
Proof.
  intros Hl. unfold validate_item, item_messages. cbn [fst snd].
  rewrite (bind_Ok _ _ _ _ _ (set_contains_Ok l name s h Hl)).
  destruct (bool_decide (name ∈ s)) eqn:Hin.
  - apply bool_decide_eq_true in Hin.
    rewrite (bind_Ok _ _ _ _ _ (set_remove_Ok l name s h Hl Hin)).
    destruct (_ && _ && flag); unfold ret; [reflexivity|].
    by rewrite app_nil_r.
  - apply bool_decide_eq_false in Hin.
    assert (Hsame : <[l := PySet (s ∖ {[name]})]> h = h).
    { apply insert_id. rewrite Hl. do 2 f_equal. symmetry.
      by apply difference_disjoint_L, disjoint_singleton_r. }
    rewrite Hsame.
    destruct (negb (Py.truthy (repository data))); [reflexivity|].
    destruct (negb (Py.truthy (tag data))); unfold ret; [reflexivity|].
    by rewrite app_nil_r.
Qed.

Lemma validate_loop_spec (l : loc) (flag : bool) (items : list (string * CollectionTagData)) :
  forall (errors : list string) (s : gset string) (h : heap),
    h !! l = Some (PySet s) ->
    validate_loop l flag errors items h
    = Ok (errors ++ loop_messages s flag items, <[l := PySet (s ∖ keys items)]> h).
Proof.
  induction items as [|[name data] items IH]; intros errors s h Hl.
  - cbn [validate_loop loop_messages]. unfold ret, keys. cbn [fmap list_fmap list_to_set].
    rewrite app_nil_r, difference_empty_L, insert_id; done.
  - cbn [validate_loop loop_messages fst snd].
    rewrite (bind_Ok _ _ _ _ _ (validate_item_spec l flag errors name data s h Hl)).
    rewrite (IH _ (s ∖ {[name]})) by apply lookup_insert_eq.
    rewrite insert_insert_eq, <- app_assoc. unfold keys.
    cbn [fmap list_fmap fst list_to_set].
    by rewrite difference_difference_l_L.
Qed.

Lemma loop_messages_app (s : gset string) (flag : bool)
    (l1 l2 : list (string * CollectionTagData)) :
  loop_messages s flag (l1 ++ l2)
  = loop_messages s flag l1 ++ loop_messages (s ∖ keys l1) flag l2.
Proof.
  revert s. induction l1 as [|[name data] l1 IH]; intros s.
  - unfold keys. cbn. by rewrite difference_empty_L.
  - cbn [app loop_messages fst snd]. rewrite IH, <- app_assoc. unfold keys.
    cbn [fmap list_fmap fst list_to_set].
    by rewrite difference_difference_l_L.
Qed.

Lemma set_order_empty : set_order ∅ = [].
Proof. apply Permutation_nil_r. rewrite set_order_perm. by rewrite elements_empty. Qed.

(** The whole validator, from a heap where the caller's collection is
    [c]: it never raises, it makes one new object, the working set, and
    leaves the rest of the heap as it was. *)
Lemma validate_tags_spec (tag_data : list (string * CollectionTagData)) (ignores : loc)
    (flag : bool) (c : py_collection) (h : heap) :
  h !! ignores = Some c ->
  validate tag_data ignores flag h
  = Ok (loop_messages (elems c) flag tag_data ++
          (if flag then map invalid_ignore_msg (set_order (elems c ∖ keys tag_data))
           else []),
        <[fresh (dom h) := PySet (elems c ∖ keys tag_data)]> h).
Proof.
  intros Hc. unfold validate_tags.
  rewrite (bind_Ok _ _ _ _ _ (set_new_Ok ignores c h Hc)).
  rewrite (bind_Ok _ _ _ _ _
             (validate_loop_spec _ flag tag_data [] (elems c) _ (lookup_insert_eq _ _ _))).
  rewrite insert_insert_eq. cbn [app].
  rewrite (bind_Ok _ _ _ _ _ (set_truthy_Ok _ _ _ (lookup_insert_eq _ _ _))).
  destruct (bool_decide (elems c ∖ keys tag_data = ∅)) eqn:He; cbn [negb andb].
  - apply bool_decide_eq_true in He. rewrite He, set_order_empty. cbn [map].
    unfold ret. by destruct flag; rewrite app_nil_r.
  - destruct flag; cbv iota.
    + by rewrite (bind_Ok _ _ _ _ _ (set_iter_Ok _ _ _ (lookup_insert_eq _ _ _))).
    + unfold ret. by rewrite app_nil_r.
Qed.

Lemma not_in_working_set (name : string) (s k : gset string) :
  name ∉ s -> bool_decide (name ∈ s ∖ k) = false.
Proof.
  intros H. apply bool_decide_eq_false. rewrite elem_of_difference. tauto.
Qed.

Lemma keys_app (l1 l2 : list (string * CollectionTagData)) :
  keys (l1 ++ l2) = keys l1 ∪ keys l2.
Proof. unfold keys. by rewrite fmap_app, list_to_set_app_L. Qed.

Lemma keys_cons (name : string) (data : CollectionTagData)
    (l : list (string * CollectionTagData)) :
  keys ((name, data) :: l) = {[name]} ∪ keys l.
Proof. reflexivity. Qed.

Lemma elem_of_keys (name : string) (l : list (string * CollectionTagData)) :
  name ∈ keys l <-> name ∈ l.*1.
Proof. unfold keys. apply elem_of_list_to_set. Qed.



(** A name that is not in the set is not among the names to take out. *)
Lemma difference_keys_insert (s : gset string) (name : string)
    (l1 l2 : list (string * CollectionTagData)) (data : CollectionTagData) :
  name ∉ s -> s ∖ keys (l1 ++ (name, data) :: l2) = s ∖ keys (l1 ++ l2).
Proof.
  intros Hout. apply set_eq. intros k.
  rewrite !elem_of_difference, !keys_app, keys_cons, !elem_of_union, elem_of_singleton.
  split; [tauto|]. intros [Hk Hn]. split; [exact Hk|].
  intros [H|[->|H]]; tauto.
Qed.

(** C3.  A field of a record is absent when Python's truth test on it
    fails: it is [None], or the empty string.  For a collection of the
    results whose name is not in the ignore set: when the loop reaches it,
    its body adds the one message
    [<name>'s repository is not specified at all in collection-meta.yaml]
    if the repository is absent, else the one message
    [<name> <version> is not tagged in <repository>] if the tag is absent,
    else nothing, and does not touch the heap.  The list the validator
    returns has this message between those of the collections before and
    what comes after, and is, this message apart, the list it returns for
    the results without the collection. *)
Theorem validate_tags_not_ignored (l1 l2 : list (string * CollectionTagData))
    (name : string) (data : CollectionTagData) (ignores : loc) (flag : bool)
    (c : py_collection) (h : heap)
    (Hc : h !! ignores = Some c) (Hname : name ∉ elems c) :
  let emitted :=
    if negb (Py.truthy (repository data)) then
      [name +:+ "'s repository is not specified at all in collection-meta.yaml"]
    else if negb (Py.truthy (tag data)) then
      [name +:+ " " +:+ version data +:+ " is not tagged in "
         +:+ default EmptyString (repository data)]
    else [] in
  let ignore_set := fresh (dom h) in
  exists (before after : list string) (h1 h2 : heap),
    validate_loop ignore_set flag [] l1 (<[ignore_set := PySet (elems c)]> h)
      = Ok (before, h1) /\
    validate_item ignore_set flag before (name, data) h1 = Ok (before ++ emitted, h1) /\
    validate (l1 ++ (name, data) :: l2) ignores flag h
      = Ok (before ++ emitted ++ after, h2) /\
    validate (l1 ++ l2) ignores flag h = Ok (before ++ after, h2).
Proof.
  intros emitted ignore_set.
  pose proof (not_in_working_set name (elems c) (keys l1) Hname) as Hout.
  assert (Hitem : item_messages (elems c ∖ keys l1) flag name data = emitted).
  { unfold item_messages. by rewrite Hout. }
  assert (Hsame : elems c ∖ keys l1 ∖ {[name]} = elems c ∖ keys l1).
  { apply bool_decide_eq_false in Hout.
    by apply difference_disjoint_L, disjoint_singleton_r. }
  eexists _, _, _, _. split; [|split; [|split]].
  - rewrite (validate_loop_spec ignore_set flag l1 [] (elems c))
      by apply lookup_insert_eq.
    rewrite insert_insert_eq. reflexivity.
  - rewrite (validate_item_spec ignore_set flag _ name data (elems c ∖ keys l1))
      by apply lookup_insert_eq.
    rewrite Hitem, insert_insert_eq, Hsame. reflexivity.
  - rewrite (validate_tags_spec _ ignores flag c h Hc).
    rewrite loop_messages_app. cbn [loop_messages fst snd app].
    rewrite Hitem, <- !app_assoc. reflexivity.
  - rewrite (validate_tags_spec _ ignores flag c h Hc).
    rewrite loop_messages_app, Hsame, <- app_assoc.
    by rewrite (difference_keys_insert (elems c) name l1 l2 data Hname).
Qed.


(** C5 (as amended).  For a name of the ignore set that is not a key of
    the results: with [error_on_useless_ignores] the validator returns the
    messages of the loop followed by one message
    [invalid ignore <repr(n)>: <n> does not match any collection] for each
    name [n] of the ignore set that is no key, in the order in which the
    set is iterated; this name is one of them, once.  Without
    [error_on_useless_ignores] the validator returns the messages of the
    loop and nothing more.  For a name of printable characters without
    quote or backslash the message is
    [invalid ignore '<name>': <name> does not match any collection]. *)
Theorem validate_tags_invalid_ignore (tag_data : list (string * CollectionTagData))
    (name : string) (ignores : loc) (c : py_collection) (h : heap)
    (Hc : h !! ignores = Some c)
    (Hname : name ∈ elems c)
    (Hkey : name ∉ keys tag_data) :
  let message := fun n : string =>
    "invalid ignore " +:+ Py.repr n +:+ ": " +:+ n +:+ " does not match any collection" in
  let ignore_set := fresh (dom h) in
  let h0 := <[ignore_set := PySet (elems c)]> h in
  (exists (errors : list string) (h' : heap) (before after : list string),
      validate_loop ignore_set true [] tag_data h0 = Ok (errors, h') /\
      validate tag_data ignores true h
        = Ok (errors ++ map message before ++ [message name] ++ map message after, h') /\
      (name ∉ before) /\ (name ∉ after) /\
      before ++ name :: after ≡ₚ elements (elems c ∖ keys tag_data)) /\
  (exists (errors : list string) (h' : heap),
      validate_loop ignore_set false [] tag_data h0 = Ok (errors, h') /\
      validate tag_data ignores false h = Ok (errors, h')) /\
  (plain name = true ->
   message name
   = "invalid ignore '" +:+ name +:+ "': " +:+ name +:+ " does not match any collection").
Proof.
  intros message ignore_set h0. split; [|split].
  3:{ intros Hplain.
      exact (repr_plain_within "invalid ignore "
               (": " +:+ name +:+ " does not match any collection") name Hplain). }
  - assert (Hin : name ∈ set_order (elems c ∖ keys tag_data)).
    { rewrite set_order_perm. apply elem_of_elements. by apply elem_of_difference. }
    assert (Hnd : NoDup (set_order (elems c ∖ keys tag_data))).
    { rewrite set_order_perm. apply NoDup_elements. }
    apply list_elem_of_split in Hin as (before & after & Hsplit).
    pose proof (set_order_perm (elems c ∖ keys tag_data)) as Hperm.
    rewrite Hsplit in Hnd, Hperm. apply NoDup_app in Hnd as (_ & Hdisj & Hnd).
    apply NoDup_cons in Hnd as [Hafter _].
    eexists _, _, before, after. split; [|split; [|split; [|split]]].
    + unfold h0. rewrite (validate_loop_spec ignore_set true tag_data [] (elems c))
        by apply lookup_insert_eq.
      rewrite insert_insert_eq. reflexivity.
    + rewrite (validate_tags_spec _ ignores true c h Hc), Hsplit.
      rewrite map_app. reflexivity.
    + intros Hb. apply (Hdisj name Hb). left.
    + exact Hafter.
    + exact Hperm.
  - eexists _, _. split.
    + unfold h0. rewrite (validate_loop_spec ignore_set false tag_data [] (elems c))
        by apply lookup_insert_eq.
      rewrite insert_insert_eq. reflexivity.
    + rewrite (validate_tags_spec _ ignores false c h Hc). by rewrite app_nil_r.
Qed.

(** C10 (as amended).  The validator works on a set of its own, made from
    the caller's collection: every name that is a key of the results is
    removed from that working set, every other name of the ignore set
    stays in it, and the caller's collection, like every object that was
    on the heap, is the same when the validator returns; the validator
    does not raise. *)
Theorem validate_tags_copies_ignores (tag_data : list (string * CollectionTagData))
    (ignores : loc) (flag : bool) (c : py_collection) (h : heap)
    (Hc : h !! ignores = Some c) :
  exists (errors : list string) (h' : heap) (working : gset string),
    validate tag_data ignores flag h = Ok (errors, h') /\
    h' !! ignores = Some c /\
    (forall l o, h !! l = Some o -> h' !! l = Some o) /\
    fresh (dom h) <> ignores /\
    h' !! fresh (dom h) = Some (PySet working) /\
    (forall name, name ∈ working <-> name ∈ elems c /\ name ∉ keys tag_data).
Proof.
  assert (Hold : forall l o, h !! l = Some o -> fresh (dom h) <> l).
  { intros l o Hl <-. by rewrite fresh_loc_None in Hl. }
  eexists _, _, _. split; [apply (validate_tags_spec _ ignores flag c h Hc)|].
  split; [|split; [|split; [|split]]].
  - rewrite lookup_insert_ne; [exact Hc | by eapply Hold].
  - intros l o Hl. rewrite lookup_insert_ne; [exact Hl | by eapply Hold].
  - by eapply Hold.
  - apply lookup_insert_eq.
  - intros name. apply elem_of_difference.
Qed.

End ValidatorFacts.

(** ** The scenarios *)

Section Scenarios.
Import Scenario.

Lemma elements_perm (s : gset string) : elements s ≡ₚ elements s.
Proof. reflexivity. Qed.

Lemma heap_with_lookup (ignores : gset string) :
  heap_with ignores !! 0%nat = Some (PySet ignores).
Proof. apply lookup_singleton_eq. Qed.

(** Scenario A: the second fetched tag is the one; the resolver stops
    there. *)
Lemma get_collection_tags_first_match_witness :
  exists tr : list event,
    _get_collection_tags re_compile_table (git_prints two_tags) decode_ascii
      "1.2.0" foo_meta "foo" = (tr, Ok foo_tagged).
Proof.
  destruct (get_collection_tags_first_match re_compile_table (git_prints two_tags)
              decode_ascii "1.2.0" foo_meta "foo" foo_repository None
              (g_steps (_get_tags (git_prints two_tags) decode_ascii foo_repository)))
    as (tr & d & Hrun & Hd & _); [reflexivity..|].
  exists tr. rewrite Hrun, Hd. reflexivity.
Defined.

(** C1 as stated fails for a pattern that compiles and has no group:
    [match.group(1)] raises [IndexError] at the first tag the pattern
    matches, and no record is returned. *)
Lemma get_collection_tags_groupless_counterexample :
  Py.truthy (meta_repository foo_meta_groupless) = true /\
  (exists p, compiled_regex re_compile_table foo_meta_groupless = Some (Some p)) /\
  _get_tags (git_prints two_tags) decode_ascii foo_repository
    = MkRun (g_steps (_get_tags (git_prints two_tags) decode_ascii foo_repository)) None /\
  yields (g_steps (_get_tags (git_prints two_tags) decode_ascii foo_repository))
    = ["v1.0.0"; "v1.2.0"] /\
  (_get_collection_tags re_compile_table (git_prints two_tags) decode_ascii
     "1.2.0" foo_meta_groupless "foo").2 = Raise (IndexError "no such group") /\
  ~ (exists tr d,
       _get_collection_tags re_compile_table (git_prints two_tags) decode_ascii
         "1.2.0" foo_meta_groupless "foo" = (tr, Ok d)).
Proof.
  split; [reflexivity|]. split; [eexists; reflexivity|].
  split; [reflexivity|]. split; [reflexivity|]. split; [reflexivity|].
  intros (tr & d & H). vm_compute in H. discriminate H.
Qed.

(** Scenario C: no repository, no fetch. *)
Lemma get_collection_tags_no_repository_witness :
  (_get_collection_tags re_compile_table (git_prints two_tags) decode_ascii
     "2.0.0" bar_meta "bar").2 = Ok bar_record /\
  existsb is_spawn
    (_get_collection_tags re_compile_table (git_prints two_tags) decode_ascii
       "2.0.0" bar_meta "bar").1 = false.
Proof.
  destruct (proj1 (get_collection_tags_no_repository re_compile_table
                     (git_prints two_tags) decode_ascii "2.0.0" bar_meta "bar"))
    as [Hrun Hspawn]; [reflexivity|].
  split; [by rewrite Hrun | exact Hspawn].
Defined.

Lemma get_tags_nonzero_exit_witness :
  yields (g_steps (_get_tags git_fails decode_ascii foo_repository)) = [] /\
  g_end (_get_tags git_fails decode_ascii foo_repository) = None /\
  exists tr : list event,
    _get_collection_tags re_compile_table git_fails decode_ascii
      "1.2.0" foo_meta "foo" = (tr, Ok foo_untagged).
Proof.
  destruct (get_tags_nonzero_exit re_compile_table git_fails decode_ascii
              foo_repository (MkCompleted 128 EmptyString "fatal: repository not found"))
    as (Hy & He & _ & Hres); [reflexivity | discriminate |].
  split; [exact Hy|]. split; [exact He|].
  apply (Hres "1.2.0" foo_meta "foo"); reflexivity.
Defined.

(** C9 on the code: the error the resolver logs for a pattern that does
    not compile carries the collection name, and its message is about
    [None]: the pattern is nowhere in the record. *)
Theorem invalid_regex_message_omits_pattern :
  exists r : log_record,
    _get_collection_tags re_compile_table (git_prints two_tags) decode_ascii
      "1.2.0" foo_meta_unclosed "foo" = ([EvLog r], Ok foo_untagged) /\
    log_level r = ERROR /\
    log_msg r = "None is an invalid regex" /\
    log_mentions "foo" r = true /\
    log_mentions "([0-9.]+" r = false.
Proof. eexists. repeat split; reflexivity. Qed.

(** Scenarios B and C through the validator, nothing ignored: [foo] has a
    repository and no tag, [bar] has no repository; each gets its one
    message. *)
Lemma validate_tags_not_ignored_witness :
  (exists h2 : heap,
     validate_tags elements [("foo", foo_untagged)] 0%nat true (heap_with ∅)
     = Ok (["foo 1.2.0 is not tagged in https://example/foo.git"], h2)) /\
  (exists h2 : heap,
     validate_tags elements [("bar", bar_record)] 0%nat true (heap_with ∅)
     = Ok (["bar's repository is not specified at all in collection-meta.yaml"], h2)).
Proof.
  assert (Hname : forall name : string, name ∉ elems (PySet ∅)).
  { intros name. cbn [elems]. apply not_elem_of_empty. }
  split.
  - destruct (validate_tags_not_ignored elements elements_perm [] [] "foo" foo_untagged
                0%nat true (PySet ∅) (heap_with ∅) (heap_with_lookup _) (Hname _))
      as (before & after & h1 & h2 & Hloop & _ & Hrun & Hwithout).
    injection Hloop as <- _. vm_compute in Hwithout. injection Hwithout as <- _.
    exists h2. exact Hrun.
  - destruct (validate_tags_not_ignored elements elements_perm [] [] "bar" bar_record
                0%nat true (PySet ∅) (heap_with ∅) (heap_with_lookup _) (Hname _))
      as (before & after & h1 & h2 & Hloop & _ & Hrun & Hwithout).
    injection Hloop as <- _. vm_compute in Hwithout. injection Hwithout as <- _.
    exists h2. exact Hrun.
Defined.



(** An ignore that names no collection: the one message of the
    validator, and none without the flag. *)
Lemma validate_tags_invalid_ignore_witness :
  (exists h' : heap,
     validate_tags elements [("foo", foo_tagged)] 0%nat true (heap_with {["baz"]})
     = Ok (["invalid ignore 'baz': baz does not match any collection"], h')) /\
  (exists h' : heap,
     validate_tags elements [("foo", foo_tagged)] 0%nat false (heap_with {["baz"]})
     = Ok ([], h')).
Proof.
  assert (Hname : "baz" ∈ elems (PySet {["baz"]})).
  { cbn [elems]. apply elem_of_singleton_2. reflexivity. }
  assert (Hkey : "baz" ∉ keys [("foo", foo_tagged)]).
  { unfold keys. cbn. rewrite elem_of_union, elem_of_singleton.
    intros [H|H]; [discriminate H | by apply not_elem_of_empty in H]. }
  destruct (validate_tags_invalid_ignore elements elements_perm
              [("foo", foo_tagged)] "baz" 0%nat (PySet {["baz"]}) (heap_with {["baz"]})
              (heap_with_lookup _) Hname Hkey)
    as ((errors & h' & before & after & Hloop & Hrun & _ & _ & Hperm)
        & (errors0 & h0 & Hloop0 & Hrun0) & _).
  split.
  - vm_compute in Hloop. injection Hloop as <- _.
    assert (Hone : before ++ "baz" :: after = ["baz"]).
    { apply Permutation_singleton_r. vm_compute in Hperm. exact Hperm. }
    destruct before as [|b before]; [|destruct before; discriminate Hone].
    cbn [app] in Hone. injection Hone as ->. exists h'. exact Hrun.
  - vm_compute in Hloop0. injection Hloop0 as <- _. exists h0. exact Hrun0.
Defined.

(** C5 as stated fails for a name with a single quote in it: [repr] shows
    it between double quotes, and the message of the claim is not among
    those the validator returns. *)
Lemma validate_tags_invalid_ignore_quote_counterexample :
  exists (errors : list string) (h' : heap),
    validate_tags elements [] 0%nat true (heap_with {["it's"]}) = Ok (errors, h') /\
    errors = ["invalid ignore " +:+ Py.chr Py.DQUOTE +:+ "it's" +:+ Py.chr Py.DQUOTE
                +:+ ": it's does not match any collection"] /\
    "invalid ignore 'it's': it's does not match any collection" ∉ errors.
Proof.
  destruct (validate_tags elements [] 0%nat true (heap_with {["it's"]}))
    as [e|[errors h']] eqn:Hrun;
    vm_compute in Hrun; [discriminate Hrun|].
  injection Hrun as <- <-. eexists _, _. split; [reflexivity|].
  split; [reflexivity|].
  intros [H|H]%elem_of_cons; [discriminate H | by apply elem_of_nil in H].
Qed.

Lemma validate_tags_copies_ignores_witness :
  exists (errors : list string) (h' : heap) (working : gset string),
    validate_tags elements [("foo", foo_tagged)] 0%nat true (heap_with {["foo"]})
      = Ok (errors, h') /\
    h' !! 0%nat = Some (PySet {["foo"]}) /\
    (forall l o, heap_with {["foo"]} !! l = Some o -> h' !! l = Some o) /\
    fresh (dom (heap_with {["foo"]})) <> 0%nat /\
    h' !! fresh (dom (heap_with {["foo"]})) = Some (PySet working) /\
    (forall name, name ∈ working <->
                  name ∈ elems (PySet {["foo"]}) /\ name ∉ keys [("foo", foo_tagged)]).
Proof.
  exact (validate_tags_copies_ignores elements elements_perm
           [("foo", foo_tagged)] 0%nat true (PySet {["foo"]}) (heap_with {["foo"]})
           (heap_with_lookup _)).
Defined.

(** C10 as stated fails: [foo] is a key of the results and is still in
    the caller's set when the validator has returned. *)
Lemma validate_tags_caller_set_counterexample :
  exists (errors : list string) (h' : heap),
    validate_tags elements [("foo", foo_tagged)] 0%nat true (heap_with {["foo"]})
      = Ok (errors, h') /\
    "foo" ∈ keys [("foo", foo_tagged)] /\
    h' !! 0%nat = Some (PySet {["foo"]}) /\
    ~ (forall s : gset string, h' !! 0%nat = Some (PySet s) -> "foo" ∉ s).
Proof.
  eexists _, _. split.
  - apply (validate_tags_spec elements elements_perm _ 0%nat true (PySet {["foo"]})).
    apply heap_with_lookup.
  - assert (Hcaller :
      (<[fresh (dom (heap_with {["foo"]})) :=
           PySet (elems (PySet {["foo"]}) ∖ keys [("foo", foo_tagged)])]>
         (heap_with {["foo"]})) !! 0%nat = Some (PySet {["foo"]})).
    { rewrite lookup_insert_ne; [apply heap_with_lookup|].
      intros Heq. pose proof (fresh_loc_None (heap_with {["foo"]})) as Hf.
      rewrite Heq, heap_with_lookup in Hf. discriminate Hf. }
    split; [|split; [exact Hcaller|]].
    + unfold keys. cbn. apply elem_of_union_l, elem_of_singleton_2. reflexivity.
    + intros Hclaim. apply (Hclaim _ Hcaller), elem_of_singleton_2. reflexivity.
Qed.

End Scenarios.

(** * Further properties *)

(** ** [str.strip] *)

Lemma rstrip_cons (c : ascii) (s : string) :
  Py.rstrip (String c s)
  = match Py.rstrip s with
    | EmptyString => if Py.isspace c then EmptyString else String c EmptyString
    | r => String c r
    end.
Proof. reflexivity. Qed.

Lemma rstrip_idempotent (s : string) : Py.rstrip (Py.rstrip s) = Py.rstrip s.
Proof.
  induction s as [|c s IH]; [reflexivity|]. rewrite rstrip_cons.
  destruct (Py.rstrip s) as [|d r] eqn:Hr.
  - destruct (Py.isspace c) eqn:Hc; [reflexivity|].
    rewrite rstrip_cons. cbn [Py.rstrip]. by rewrite Hc.
  - rewrite rstrip_cons, IH. reflexivity.
Qed.

Lemma rstrip_head (s : string) (a : ascii) (r : string) :
  Py.rstrip s = String a r -> exists s', s = String a s'.
Proof.
  destruct s as [|c s]; [discriminate|]. rewrite rstrip_cons.
  destruct (Py.rstrip s); [destruct (Py.isspace c)|]; intros [= <- _] || discriminate; eauto.
Qed.

Lemma lstrip_head (s : string) (a : ascii) (r : string) :
  Py.lstrip s = String a r -> Py.isspace a = false.
Proof.
  induction s as [|c s IH]; [discriminate|]. cbn [Py.lstrip].
  destruct (Py.isspace c) eqn:Hc; [exact IH|]. by intros [= <- _].
Qed.

Lemma strip_idempotent (s : string) : Py.strip (Py.strip s) = Py.strip s.
Proof.
  unfold Py.strip. destruct (Py.rstrip (Py.lstrip s)) as [|a r] eqn:Hr; [reflexivity|].
  destruct (rstrip_head _ _ _ Hr) as [u Hu].
  apply lstrip_head in Hu. cbn [Py.lstrip]. rewrite Hu, <- Hr.
  apply rstrip_idempotent.
Qed.

(** ** [_get_ignores] *)

(** The names the ignores file gives. *)
Lemma elem_of_ignore_lines (name : string) (lines : list string) :
  name ∈ omap ignore_line lines <->
  exists line, line ∈ lines /\ Py.strip line = name /\ name <> EmptyString /\
               Py.startswith "#" line = false.
Proof.
  rewrite list_elem_of_omap. unfold ignore_line. split.
  - intros (line & Hin & Hline).
    destruct (Py.strip line) as [|a r] eqn:Hs; [discriminate|]. cbn [Py.truthy andb] in Hline.
    destruct (Py.startswith "#" line) eqn:Hc; [discriminate|].
    injection Hline as <-. by exists line.
  - intros (line & Hin & <- & Hne & Hc). exists line. split; [exact Hin|].
    destruct (Py.strip line) as [|a r]; [done|]. by rewrite Hc.
Qed.

Lemma set_update_Ok (l : loc) (xs : list string) (s : gset string) (h : heap) :
  h !! l = Some (PySet s) ->
  set_update l xs h = Ok (tt, <[l := PySet (s ∪ list_to_set xs)]> h).
Proof. intros H. unfold set_update. by rewrite (bind_Ok _ _ _ _ _ (get_set_Ok _ _ _ H)). Qed.

(** The names of the file, or none without a file, when reading does not
    fail. *)
Lemma get_ignores_spec (ignores : loc) (ignore_fp : option TextIO)
    (c : py_collection) (h : heap) :
  h !! ignores = Some c ->
  read_error ignore_fp = None ->
  _get_ignores ignores ignore_fp h
  = Ok (fresh (dom h),
        <[fresh (dom h) :=
            PySet (elems c ∪ list_to_set (omap ignore_line (read_lines ignore_fp)))]> h).
Proof.
  intros Hc Hread. unfold _get_ignores.
  rewrite (bind_Ok _ _ _ _ _ (set_new_Ok ignores c h Hc)).
  destruct ignore_fp as [[lines err]|]; cbn [read_lines read_error fp_lines fp_error] in *.
  - rewrite (bind_Ok _ _ _ _ _ (set_update_Ok _ _ _ _ (lookup_insert_eq _ _ _))).
    subst err. by rewrite insert_insert_eq.
  - unfold ret. cbn [omap list_omap list_to_set]. by rewrite union_empty_r_L.
Qed.

(** An exception from reading the file leaves [_get_ignores]. *)
Lemma get_ignores_raises (ignores : loc) (ignore_fp : option TextIO)
    (c : py_collection) (h : heap) (e : exn) :
  h !! ignores = Some c ->
  read_error ignore_fp = Some e ->
  _get_ignores ignores ignore_fp h = Raise e.
Proof.
  intros Hc Hread. unfold _get_ignores.
  rewrite (bind_Ok _ _ _ _ _ (set_new_Ok ignores c h Hc)).
  destruct ignore_fp as [[lines err]|]; cbn [read_error fp_lines fp_error] in *;
    [|discriminate Hread].
  rewrite (bind_Ok _ _ _ _ _ (set_update_Ok _ _ _ _ (lookup_insert_eq _ _ _))).
  by subst err.
Qed.

Section IgnoresFacts.
Import Scenario.

(** X1.  [_get_ignores] raises exactly when reading the ignores file
    raises, and then with that exception.  Otherwise it returns a new set
    and leaves every object of the heap, the caller's collection among
    them, as it was; a name is in the new set exactly when it is in the
    caller's collection, or is what [strip] leaves of a line of the file
    that does not start with [#] and is not blank. *)
Theorem get_ignores_names (ignores : loc) (ignore_fp : option TextIO)
    (c : py_collection) (h : heap) (Hc : h !! ignores = Some c) :
  match read_error ignore_fp with
  | Some e => _get_ignores ignores ignore_fp h = Raise e
  | None =>
      exists (l : loc) (h' : heap) (s : gset string),
        _get_ignores ignores ignore_fp h = Ok (l, h') /\
        h !! l = None /\ h' !! l = Some (PySet s) /\
        (forall l0 o, h !! l0 = Some o -> h' !! l0 = Some o) /\
        (forall name,
            name ∈ s <->
            name ∈ elems c \/
            exists line, line ∈ read_lines ignore_fp /\ Py.strip line = name /\
                         name <> EmptyString /\ Py.startswith "#" line = false)
  end.
Proof.
  destruct (read_error ignore_fp) as [e|] eqn:Hread;
    [exact (get_ignores_raises _ _ c h e Hc Hread)|].
  eexists _, _, _. split; [apply (get_ignores_spec _ _ c h Hc Hread)|].
  split; [apply fresh_loc_None|]. split; [apply lookup_insert_eq|]. split.
  - intros l0 o Hl0. rewrite lookup_insert_ne; [exact Hl0|].
    intros <-. by rewrite fresh_loc_None in Hl0.
  - intros name. by rewrite elem_of_union, elem_of_list_to_set, elem_of_ignore_lines.
Qed.

(** A file that reads to its end, and one that stops decoding after its
    first line. *)
Lemma get_ignores_names_witness :
  (exists (l : loc) (h' : heap) (s : gset string),
     _get_ignores 0%nat
       (Some (MkTextIO ["# old"; "foo " +:+ Py.chr Py.LF; Py.chr Py.LF] None))
       (heap_with {["bar"]})
       = Ok (l, h') /\
     heap_with {["bar"]} !! l = None /\ h' !! l = Some (PySet s) /\
     (forall l0 o, heap_with {["bar"]} !! l0 = Some o -> h' !! l0 = Some o) /\
     (forall name,
         name ∈ s <->
         name ∈ elems (PySet {["bar"]}) \/
         exists line, line ∈ ["# old"; "foo " +:+ Py.chr Py.LF; Py.chr Py.LF] /\
                      Py.strip line = name /\
                      name <> EmptyString /\ Py.startswith "#" line = false)) /\
  _get_ignores 0%nat (Some (MkTextIO ["foo" +:+ Py.chr Py.LF] (Some UnicodeDecodeError)))
    (heap_with {["bar"]})
  = Raise UnicodeDecodeError.
Proof.
  split.
  - exact (get_ignores_names 0%nat
             (Some (MkTextIO ["# old"; "foo " +:+ Py.chr Py.LF; Py.chr Py.LF] None))
             (PySet {["bar"]}) (heap_with {["bar"]}) (heap_with_lookup _)).
  - exact (get_ignores_names 0%nat
             (Some (MkTextIO ["foo" +:+ Py.chr Py.LF] (Some UnicodeDecodeError)))
             (PySet {["bar"]}) (heap_with {["bar"]}) (heap_with_lookup _)).
Defined.

(** X2.  A name that [_get_ignores] takes from the file and that is not in
    the caller's collection is not empty and has no white space at either
    end: [strip] leaves it as it is. *)
Theorem get_ignores_file_names_stripped (ignores : loc) (ignore_fp : option TextIO)
    (c : py_collection) (h : heap) (l : loc) (h' : heap) (s : gset string) (name : string)
    (Hc : h !! ignores = Some c)
    (Hrun : _get_ignores ignores ignore_fp h = Ok (l, h'))
    (Hs : h' !! l = Some (PySet s))
    (Hname : name ∈ s)
    (Hnew : name ∉ elems c) :
  name <> EmptyString /\ Py.strip name = name.
Proof.
  destruct (read_error ignore_fp) as [e|] eqn:Hread;
    [by rewrite (get_ignores_raises _ _ c h e Hc Hread) in Hrun|].
  rewrite (get_ignores_spec _ _ c h Hc Hread) in Hrun. injection Hrun as <- <-.
  rewrite lookup_insert_eq in Hs. injection Hs as <-.
  apply elem_of_union in Hname as [Hname|Hname]; [contradiction|].
  apply elem_of_list_to_set, elem_of_ignore_lines in Hname
    as (line & _ & <- & Hne & _).
  split; [exact Hne | apply strip_idempotent].
Qed.

Lemma get_ignores_file_names_stripped_witness :
  "foo" <> EmptyString /\ Py.strip "foo" = "foo".
Proof.
  assert (Hfoo : "foo" ∈ ({["bar"]} ∪ list_to_set (omap ignore_line ["  foo  "]) : gset string)).
  { apply elem_of_union_r, elem_of_list_to_set, list_elem_of_omap.
    exists "  foo  ". split; [apply list_elem_of_here | reflexivity]. }
  assert (Hbar : "foo" ∉ elems (PySet {["bar"]})).
  { cbn [elems]. rewrite elem_of_singleton. discriminate. }
  exact (get_ignores_file_names_stripped 0%nat (Some (MkTextIO ["  foo  "] None))
           (PySet {["bar"]}) (heap_with {["bar"]}) _ _ _ "foo" (heap_with_lookup _)
           (get_ignores_spec 0%nat (Some (MkTextIO ["  foo  "] None)) (PySet {["bar"]})
              (heap_with {["bar"]}) (heap_with_lookup _) eq_refl)
           (lookup_insert_eq _ _ _) Hfoo Hbar).
Defined.

(** X3.  Only a [#] in the first column makes a line a comment: a line
    whose [#] comes after white space is not skipped, and what [strip]
    leaves of it, the [#] included, is taken as a name. *)
Theorem get_ignores_indented_comment (ignores : loc) (lines : list string)
    (c : py_collection) (h : heap) (line : string)
    (Hc : h !! ignores = Some c)
    (Hline : line ∈ lines)
    (Hfirst : Py.startswith "#" line = false)
    (Hhash : Py.startswith "#" (Py.strip line) = true) :
  exists (l : loc) (h' : heap) (s : gset string),
    _get_ignores ignores (Some (MkTextIO lines None)) h = Ok (l, h') /\
    h' !! l = Some (PySet s) /\
    Py.strip line ∈ s.
Proof.
  eexists _, _, _.
  split; [apply (get_ignores_spec _ (Some (MkTextIO lines None)) c h Hc eq_refl)|].
  split; [apply lookup_insert_eq|].
  apply elem_of_union_r, elem_of_list_to_set, elem_of_ignore_lines.
  exists line. cbn [read_lines fp_lines]. repeat split; [done| |done].
  intros Hempty. rewrite Hempty in Hhash. discriminate Hhash.
Qed.

Lemma get_ignores_indented_comment_witness :
  exists (l : loc) (h' : heap) (s : gset string),
    _get_ignores 0%nat (Some (MkTextIO ["foo"; "  # not needed any more"] None))
      (heap_with ∅) = Ok (l, h') /\
    h' !! l = Some (PySet s) /\
    "# not needed any more" ∈ s.
Proof.
  assert (Hin : "  # not needed any more" ∈ ["foo"; "  # not needed any more"]).
  { apply list_elem_of_further, list_elem_of_here. }
  exact (get_ignores_indented_comment 0%nat ["foo"; "  # not needed any more"] (PySet ∅)
           (heap_with ∅) "  # not needed any more" (heap_with_lookup _) Hin eq_refl eq_refl).
Defined.

End IgnoresFacts.

(** ** More of the validator *)

Lemma item_messages_nil (s : gset string) (flag : bool) (name : string)
    (data : CollectionTagData) :
  item_messages s flag name data = [] <-> item_passes s flag (name, data) = true.
Proof.
  unfold item_messages, item_passes. cbn [fst snd].
  destruct (bool_decide (name ∈ s)).
  - destruct (Py.truthy (repository data) && Py.truthy (tag data) && flag); by split.
  - destruct (Py.truthy (repository data)); [|by split].
    destruct (Py.truthy (tag data)); by split.
Qed.

Lemma item_messages_other (s : gset string) (flag : bool) (name other : string)
    (data : CollectionTagData) :
  name <> other ->
  item_messages (s ∖ {[other]}) flag name data = item_messages s flag name data.
Proof.
  intros Hne. unfold item_messages.
  replace (bool_decide (name ∈ s ∖ {[other]})) with (bool_decide (name ∈ s)); [done|].
  apply bool_decide_ext. rewrite elem_of_difference, elem_of_singleton. tauto.
Qed.

(** With unique keys every item meets the ignore set it started with. *)
Lemma loop_messages_flat_map (s : gset string) (flag : bool)
    (items : list (string * CollectionTagData)) :
  NoDup items.*1 ->
  loop_messages s flag items
  = flat_map (fun item => item_messages s flag item.1 item.2) items.
Proof.
  revert s. induction items as [|[name data] items IH]; intros s Hnd; [reflexivity|].
  cbn [fmap list_fmap fst] in Hnd. apply NoDup_cons in Hnd as [Hname Hnd].
  cbn [loop_messages flat_map fst snd]. f_equal.
  rewrite (IH _ Hnd). clear IH.
  induction items as [|[name' data'] items IH]; [reflexivity|].
  cbn [fmap list_fmap fst] in Hname, Hnd. apply NoDup_cons in Hnd as [_ Hnd].
  apply not_elem_of_cons in Hname as [Hne Hname].
  cbn [flat_map fst snd]. rewrite item_messages_other by done.
  f_equal. by apply IH.
Qed.

Lemma flat_map_nil_iff {A B : Type} (f : A -> list B) (l : list A) :
  flat_map f l = [] <-> Forall (fun x => f x = []) l.
Proof.
  induction l as [|x l IH]; cbn [flat_map]; [by split|].
  rewrite Forall_cons, <- IH. split.
  - by intros [? ?]%app_eq_nil.
  - by intros [-> ->].
Qed.

Lemma loop_messages_nil (s : gset string) (flag : bool)
    (items : list (string * CollectionTagData)) :
  NoDup items.*1 ->
  loop_messages s flag items = [] <-> forallb (item_passes s flag) items = true.
Proof.
  intros Hnd. rewrite loop_messages_flat_map, flat_map_nil_iff by done.
  rewrite forallb_forall, Forall_forall. split.
  - intros H [name data] Hin. apply item_messages_nil. apply (H (name, data)), list_elem_of_In, Hin.
  - intros H [name data] Hin. apply item_messages_nil, H, list_elem_of_In, Hin.
Qed.

Section MoreValidatorFacts.
Import Scenario.

Variable set_order : gset string -> list string.
Hypothesis set_order_perm : forall s, set_order s ≡ₚ elements s.

Local Abbreviation validate := (validate_tags set_order).

Lemma invalid_ignores_nil (s : gset string) :
  map invalid_ignore_msg (set_order s) = [] <-> s = ∅.
Proof.
  split.
  - intros H%map_eq_nil. apply leibniz_equiv, elements_empty_iff.
    apply Permutation_nil_r. by rewrite <- set_order_perm, H.
  - intros ->. by rewrite set_order_empty.
Qed.

(** The validator finds nothing exactly when every collection passes and,
    if useless ignores count, every ignored name is a key. *)
Lemma validate_tags_nil (tag_data : list (string * CollectionTagData)) (s : gset string)
    (flag : bool) :
  NoDup tag_data.*1 ->
  loop_messages s flag tag_data ++
    (if flag then map invalid_ignore_msg (set_order (s ∖ keys tag_data)) else []) = [] <->
  forallb (item_passes s flag) tag_data = true /\ (flag = true -> s ⊆ keys tag_data).
Proof.
  intros Hnd. rewrite <- (loop_messages_nil s flag tag_data Hnd). split.
  - intros [Hloop Htail]%app_eq_nil. split; [exact Hloop|]. intros ->.
    apply invalid_ignores_nil in Htail. intros x Hx.
    destruct (decide (x ∈ keys tag_data)) as [|Hnot]; [done|].
    assert (Hin : x ∈ s ∖ keys tag_data) by by apply elem_of_difference.
    rewrite Htail in Hin. by apply not_elem_of_empty in Hin.
  - intros [-> Hsub]. destruct flag; [|reflexivity].
    cbn [app]. apply invalid_ignores_nil. apply set_eq. intros x.
    rewrite elem_of_difference. split; [|by intros ?%not_elem_of_empty].
    intros [Hx Hnot]. destruct Hnot. by apply Hsub.
Qed.

(** X4.  Ignoring does what it is for: for a collection whose name is in
    the ignore set and that lacks its repository or its tag, the body of
    the loop adds no message, whatever the flag, and removes the name from
    the working set. *)
Theorem validate_tags_ignored_untagged (l1 l2 : list (string * CollectionTagData))
    (name : string) (data : CollectionTagData) (ignores : loc) (flag : bool)
    (c : py_collection) (h : heap)
    (Hc : h !! ignores = Some c)
    (Hkeys : NoDup (l1 ++ (name, data) :: l2).*1)
    (Hname : name ∈ elems c)
    (Hmissing : Py.truthy (repository data) && Py.truthy (tag data) = false) :
  let ignore_set := fresh (dom h) in
  exists (before after : list string) (h1 h2 : heap) (s1 : gset string),
    validate_loop ignore_set flag [] l1 (<[ignore_set := PySet (elems c)]> h)
      = Ok (before, h1) /\
    h1 !! ignore_set = Some (PySet s1) /\
    validate_item ignore_set flag before (name, data) h1
      = Ok (before, <[ignore_set := PySet (s1 ∖ {[name]})]> h1) /\
    validate (l1 ++ (name, data) :: l2) ignores flag h = Ok (before ++ after, h2).
Proof.
  intros ignore_set.
  assert (Hfirst : name ∉ keys l1).
  { rewrite elem_of_keys. rewrite fmap_app in Hkeys.
    apply NoDup_app in Hkeys as (_ & Hdisj & _).
    intros Hin. apply (Hdisj name Hin). cbn. left. }
  assert (Hin : name ∈ elems c ∖ keys l1) by by apply elem_of_difference.
  assert (Hitem : item_messages (elems c ∖ keys l1) flag name data = []).
  { unfold item_messages. rewrite bool_decide_eq_true_2 by done. by rewrite Hmissing. }
  eexists _, _, _, _, _. split; [|split; [|split]].
  - rewrite (validate_loop_spec ignore_set flag l1 [] (elems c))
      by apply lookup_insert_eq.
    rewrite insert_insert_eq. reflexivity.
  - apply lookup_insert_eq.
  - rewrite (validate_item_spec ignore_set flag _ name data (elems c ∖ keys l1))
      by apply lookup_insert_eq.
    by rewrite Hitem, app_nil_r.
  - rewrite (validate_tags_spec set_order set_order_perm _ ignores flag c h Hc).
    rewrite loop_messages_app. cbn [loop_messages fst snd app].
    rewrite Hitem, <- !app_assoc. reflexivity.
Qed.

(** X5.  Without ignores the flag changes nothing: the validator returns,
    in the order of the results, one missing-repository message for each
    collection without a repository and one not-tagged message for each
    collection with a repository and without a tag. *)
Theorem validate_tags_no_ignores (tag_data : list (string * CollectionTagData))
    (ignores : loc) (flag : bool) (c : py_collection) (h : heap)
    (Hc : h !! ignores = Some c) (Hempty : elems c = ∅) :
  validate tag_data ignores flag h
  = Ok (flat_map (fun item =>
                    if negb (Py.truthy (repository item.2)) then [no_repository_msg item.1]
                    else if negb (Py.truthy (tag item.2)) then
                      [not_tagged_msg item.1 (version item.2)
                         (default EmptyString (repository item.2))]
                    else []) tag_data,
        <[fresh (dom h) := PySet ∅]> h).
Proof.
  rewrite (validate_tags_spec set_order set_order_perm _ ignores flag c h Hc), Hempty.
  assert (Hdiff : forall k : gset string, (∅ : gset string) ∖ k = ∅).
  { intros k. apply set_eq. intros x. rewrite elem_of_difference.
    split; [by intros [? _] | by intros ?%not_elem_of_empty]. }
  assert (Hloop : loop_messages ∅ flag tag_data
                  = flat_map (fun item =>
                      if negb (Py.truthy (repository item.2)) then [no_repository_msg item.1]
                      else if negb (Py.truthy (tag item.2)) then
                        [not_tagged_msg item.1 (version item.2)
                           (default EmptyString (repository item.2))]
                      else []) tag_data).
  { clear Hc. induction tag_data as [|[name data] items IH]; [reflexivity|].
    cbn [loop_messages flat_map fst snd]. rewrite Hdiff, IH. reflexivity. }
  rewrite Hloop, Hdiff, (set_order_empty set_order set_order_perm).
  destruct flag; cbn [map]; by rewrite app_nil_r.
Qed.

(** X6.  Switching [error_on_useless_ignores] off only takes messages away:
    what the validator returns without the flag is what it returns with
    it, some messages left out and the order kept. *)
Theorem validate_tags_flag_sublist (tag_data : list (string * CollectionTagData))
    (ignores : loc) (c : py_collection) (h : heap)
    (Hc : h !! ignores = Some c) :
  exists (quiet strict : list string) (h' : heap),
    validate tag_data ignores false h = Ok (quiet, h') /\
    validate tag_data ignores true h = Ok (strict, h') /\
    quiet `sublist_of` strict.
Proof.
  eexists _, _, _.
  split; [apply (validate_tags_spec set_order set_order_perm _ ignores false c h Hc)|].
  split; [apply (validate_tags_spec set_order set_order_perm _ ignores true c h Hc)|].
  apply sublist_app; [|apply sublist_nil_l].
  generalize (elems c). induction tag_data as [|[name data] items IH]; intros s; [done|].
  cbn [loop_messages fst snd]. apply sublist_app; [|apply IH].
  unfold item_messages. destruct (bool_decide (name ∈ s)); [|done].
  rewrite andb_false_r. apply sublist_nil_l.
Qed.

(** X7.  The validator returns at most one message for each collection and
    one for each name of the ignore set that is no key of the results. *)
Theorem validate_tags_error_count (tag_data : list (string * CollectionTagData))
    (ignores : loc) (flag : bool) (c : py_collection) (h : heap)
    (Hc : h !! ignores = Some c) :
  exists (errors : list string) (h' : heap),
    validate tag_data ignores flag h = Ok (errors, h') /\
    (length errors <= length tag_data + size (elems c ∖ keys tag_data))%nat.
Proof.
  eexists _, _.
  split; [apply (validate_tags_spec set_order set_order_perm _ ignores flag c h Hc)|].
  rewrite length_app. apply Nat.add_le_mono.
  - generalize (elems c). induction tag_data as [|[name data] items IH]; intros s; [done|].
    cbn [loop_messages fst snd]. rewrite length_app. cbn [length].
    specialize (IH (s ∖ {[name]})).
    assert (length (item_messages s flag name data) <= 1)%nat; [|lia].
    unfold item_messages. repeat case_match; cbn; lia.
  - destruct flag; [|cbn; lia].
    rewrite length_map, set_order_perm. done.
Qed.

End MoreValidatorFacts.

(** ** The commands *)

Section CommandFacts.
Import Scenario.

Variable set_order : gset string -> list string.
Hypothesis set_order_perm : forall s, set_order s ≡ₚ elements s.
Variable load_yaml_file : string -> result (list (string * CollectionTagData)).

Lemma print_validation_errors_spec (tag_data : list (string * CollectionTagData))
    (ignores : loc) (flag : bool) (errors : list string) (h h' : heap) :
  validate_tags set_order tag_data ignores flag h = Ok (errors, h') ->
  _print_validation_errors set_order tag_data ignores flag h
  = Ok ((errors, if bool_decide (errors = []) then 0 else 1), h').
Proof.
  intros Hrun. unfold _print_validation_errors. rewrite (bind_Ok _ _ _ _ _ Hrun).
  by destruct errors.
Qed.

(** X8.  [_print_validation_errors] prints the messages of the validator,
    in its order, and returns 0 or 1.  For results with unique keys it
    returns 0, and prints nothing, exactly when every collection passes
    (it is ignored and, if useless ignores count, lacks its repository or
    its tag; or it is not ignored and has both) and, if useless ignores
    count, every name of the ignore set is a key of the results. *)
Theorem print_validation_errors_status (tag_data : list (string * CollectionTagData))
    (ignores : loc) (flag : bool) (c : py_collection) (h : heap)
    (Hc : h !! ignores = Some c)
    (Hkeys : NoDup tag_data.*1) :
  exists (printed : list string) (status : Z) (h' : heap),
    _print_validation_errors set_order tag_data ignores flag h = Ok ((printed, status), h') /\
    validate_tags set_order tag_data ignores flag h = Ok (printed, h') /\
    (status = 0 \/ status = 1) /\
    (status = 0 <-> printed = []) /\
    (status = 0 <->
     forallb (item_passes (elems c) flag) tag_data = true /\
     (flag = true -> elems c ⊆ keys tag_data)).
Proof.
  pose proof (validate_tags_spec set_order set_order_perm tag_data ignores flag c h Hc) as Hrun.
  pose proof (validate_tags_nil set_order set_order_perm tag_data (elems c) flag Hkeys) as Hnil.
  eexists _, _, _. split; [apply (print_validation_errors_spec _ _ _ _ _ _ Hrun)|].
  split; [exact Hrun|].
  assert (Hstatus : forall errors : list string,
             (if bool_decide (errors = []) then 0 else 1) = 0 <-> errors = []).
  { intros errors. case_bool_decide; [done|]. split; [discriminate | done]. }
  split; [case_bool_decide; auto|]. split; [apply Hstatus|].
  by rewrite Hstatus, Hnil.
Qed.

(** X9.  [validate_tags_file_command] reads the ignores first: when
    reading the ignores file raises, the command raises the same exception.
    Otherwise, when loading the tags file raises, the command raises that
    exception; and when the file holds tag data as the [validate-tags]
    subcommand writes it (records with their version, repository and tag,
    under unique keys), the command validates it against the names of
    [--ignore] together with the names of the ignores file: it returns 0
    or 1, and 0 exactly when every collection passes for that ignore set
    and, if useless ignores count, every ignored name is a key; the
    collection given as [--ignore] is the same afterwards. *)
Theorem validate_tags_file_command_status (extra : Extra) (c : py_collection) (h : heap)
    (Hc : h !! extra_ignore extra = Some c) :
  let ignore_set :=
    elems c ∪ list_to_set (omap ignore_line (read_lines (extra_ignores_file extra))) in
  let flag := extra_error_on_useless_ignores extra in
  match read_error (extra_ignores_file extra) with
  | Some e => validate_tags_file_command set_order load_yaml_file extra h = Raise e
  | None =>
      (forall tag_data,
          load_yaml_file (extra_tags_file extra) = Ok tag_data ->
          NoDup tag_data.*1 ->
          exists (printed : list string) (status : Z) (h' : heap),
            validate_tags_file_command set_order load_yaml_file extra h
              = Ok ((printed, status), h') /\
            (status = 0 \/ status = 1) /\
            (status = 0 <-> printed = []) /\
            (status = 0 <->
             forallb (item_passes ignore_set flag) tag_data = true /\
             (flag = true -> ignore_set ⊆ keys tag_data)) /\
            h' !! extra_ignore extra = Some c) /\
      (forall e,
          load_yaml_file (extra_tags_file extra) = Raise e ->
          validate_tags_file_command set_order load_yaml_file extra h = Raise e)
  end.
Proof.
  intros ignore_set flag.
  destruct (read_error (extra_ignores_file extra)) as [e|] eqn:Hread.
  { unfold validate_tags_file_command, bind at 1.
    by rewrite (get_ignores_raises _ _ c h e Hc Hread). }
  pose proof (get_ignores_spec (extra_ignore extra) (extra_ignores_file extra) c h Hc Hread)
    as Hig.
  fold ignore_set in Hig. split.
  - intros tag_data Hload Hkeys. unfold validate_tags_file_command.
    rewrite (bind_Ok _ _ _ _ _ Hig). unfold bind at 1. rewrite Hload. unfold Ok at 1.
    set (h1 := <[fresh (dom h) := PySet ignore_set]> h).
    assert (Hset : h1 !! fresh (dom h) = Some (PySet ignore_set)) by apply lookup_insert_eq.
    pose proof (validate_tags_spec set_order set_order_perm tag_data _ flag
                  (PySet ignore_set) h1 Hset) as Hrun.
    pose proof (validate_tags_nil set_order set_order_perm tag_data ignore_set flag Hkeys)
      as Hnil.
    cbn [elems] in Hrun. fold flag.
    change (match Ok (tag_data, h1) with
            | inl e => Raise e
            | inr (a, h'0) => _print_validation_errors set_order a (fresh (dom h)) flag h'0
            end)
      with (_print_validation_errors set_order tag_data (fresh (dom h)) flag h1).
    assert (Hstatus : forall errors : list string,
               (if bool_decide (errors = []) then 0 else 1) = 0 <-> errors = []).
    { intros errors. case_bool_decide; [done|]. split; [discriminate | done]. }
    eexists _, _, _. split; [exact (print_validation_errors_spec _ _ _ _ _ _ Hrun)|].
    split; [case_bool_decide; auto|]. split; [apply Hstatus|].
    split; [by rewrite Hstatus, Hnil|].
    assert (Hh1 : h1 !! extra_ignore extra = Some c).
    { unfold h1. rewrite lookup_insert_ne; [exact Hc|].
      intros Heq. rewrite <- Heq, fresh_loc_None in Hc. discriminate Hc. }
    rewrite lookup_insert_ne; [exact Hh1|].
    intros Heq. rewrite <- Heq, fresh_loc_None in Hh1. discriminate Hh1.
  - intros e Hload. unfold validate_tags_file_command.
    rewrite (bind_Ok _ _ _ _ _ Hig). unfold bind at 1. by rewrite Hload.
Qed.

End CommandFacts.

Section CommandScenarios.
Import Scenario.

Lemma print_validation_errors_status_witness :
  exists (printed : list string) (status : Z) (h' : heap),
    _print_validation_errors elements [("foo", foo_tagged); ("bar", bar_record)] 0%nat true
      (heap_with {["bar"]}) = Ok ((printed, status), h') /\
    validate_tags elements [("foo", foo_tagged); ("bar", bar_record)] 0%nat true
      (heap_with {["bar"]}) = Ok (printed, h') /\
    (status = 0 \/ status = 1) /\
    (status = 0 <-> printed = []) /\
    (status = 0 <->
     forallb (item_passes (elems (PySet {["bar"]})) true)
       [("foo", foo_tagged); ("bar", bar_record)] = true /\
     (true = true -> elems (PySet {["bar"]}) ⊆ keys [("foo", foo_tagged); ("bar", bar_record)])).
Proof.
  assert (Hkeys : NoDup [("foo", foo_tagged); ("bar", bar_record)].*1).
  { cbn. apply NoDup_cons. split; [|apply NoDup_singleton].
    rewrite list_elem_of_singleton. discriminate. }
  exact (print_validation_errors_status elements elements_perm
           [("foo", foo_tagged); ("bar", bar_record)] 0%nat true
           (PySet {["bar"]}) (heap_with {["bar"]}) (heap_with_lookup _) Hkeys).
Defined.

(** The tags file of scenarios A and C with [bar] ignored from the file;
    and the same with an ignores file that cannot be read. *)
Lemma validate_tags_file_command_status_witness :
  (exists (printed : list string) (status : Z) (h' : heap),
     validate_tags_file_command elements load_tags_yaml ignore_bar_from_file (heap_with ∅)
       = Ok ((printed, status), h') /\
     (status = 0 \/ status = 1) /\
     (status = 0 <-> printed = []) /\
     (status = 0 <->
      forallb (item_passes
                 (elems (PySet ∅) ∪
                  list_to_set (omap ignore_line
                                 (read_lines (extra_ignores_file ignore_bar_from_file))))
                 true)
        [("foo", foo_tagged); ("bar", bar_record)] = true /\
      (true = true ->
       elems (PySet ∅) ∪
         list_to_set (omap ignore_line (read_lines (extra_ignores_file ignore_bar_from_file)))
       ⊆ keys [("foo", foo_tagged); ("bar", bar_record)])) /\
     h' !! 0%nat = Some (PySet ∅)) /\
  validate_tags_file_command elements load_tags_yaml ignores_file_undecodable (heap_with ∅)
  = Raise UnicodeDecodeError.
Proof.
  assert (Hkeys : NoDup [("foo", foo_tagged); ("bar", bar_record)].*1).
  { cbn. apply NoDup_cons. split; [|apply NoDup_singleton].
    rewrite list_elem_of_singleton. discriminate. }
  split.
  - exact (proj1 (validate_tags_file_command_status elements elements_perm load_tags_yaml
                    ignore_bar_from_file (PySet ∅) (heap_with ∅) (heap_with_lookup _))
             [("foo", foo_tagged); ("bar", bar_record)] eq_refl Hkeys).
  - exact (validate_tags_file_command_status elements elements_perm load_tags_yaml
             ignores_file_undecodable (PySet ∅) (heap_with ∅) (heap_with_lookup _)).
Defined.

End CommandScenarios.

Section ValidatorScenarios.
Import Scenario.

(** [bar] has no repository and is ignored. *)
Lemma validate_tags_ignored_untagged_witness :
  exists (before after : list string) (h1 h2 : heap) (s1 : gset string),
    validate_loop (fresh (dom (heap_with {["bar"]}))) true [] [("foo", foo_tagged)]
      (<[fresh (dom (heap_with {["bar"]})) := PySet {["bar"]}]> (heap_with {["bar"]}))
      = Ok (before, h1) /\
    h1 !! fresh (dom (heap_with {["bar"]})) = Some (PySet s1) /\
    validate_item (fresh (dom (heap_with {["bar"]}))) true before ("bar", bar_record) h1
      = Ok (before, <[fresh (dom (heap_with {["bar"]})) := PySet (s1 ∖ {["bar"]})]> h1) /\
    validate_tags elements ([("foo", foo_tagged)] ++ ("bar", bar_record) :: []) 0%nat true
      (heap_with {["bar"]}) = Ok (before ++ after, h2).
Proof.
  assert (Hkeys : NoDup ([("foo", foo_tagged)] ++ [("bar", bar_record)]).*1).
  { cbn. apply NoDup_cons. split; [|apply NoDup_singleton].
    rewrite list_elem_of_singleton. discriminate. }
  assert (Hname : "bar" ∈ elems (PySet {["bar"]})).
  { cbn [elems]. apply elem_of_singleton_2. reflexivity. }
  exact (validate_tags_ignored_untagged elements elements_perm
           [("foo", foo_tagged)] [] "bar" bar_record 0%nat true (PySet {["bar"]})
           (heap_with {["bar"]}) (heap_with_lookup _) Hkeys Hname eq_refl).
Defined.

(** The default [ignores=()]: scenarios B and C together. *)
Lemma validate_tags_no_ignores_witness :
  validate_tags elements [("foo", foo_untagged); ("bar", bar_record)] 0%nat false
    {[ 0%nat := PySeq [] ]}
  = Ok (["foo 1.2.0 is not tagged in https://example/foo.git";
         "bar's repository is not specified at all in collection-meta.yaml"],
        <[fresh (dom ({[ 0%nat := PySeq [] ]} : heap)) := PySet ∅]> {[ 0%nat := PySeq [] ]}).
Proof.
  exact (validate_tags_no_ignores elements elements_perm
           [("foo", foo_untagged); ("bar", bar_record)] 0%nat false (PySeq [])
           {[ 0%nat := PySeq [] ]} (lookup_singleton_eq _ _) eq_refl).
Defined.

Lemma validate_tags_flag_sublist_witness :
  exists (quiet strict : list string) (h' : heap),
    validate_tags elements [("foo", foo_tagged)] 0%nat false (heap_with {["foo"; "baz"]})
      = Ok (quiet, h') /\
    validate_tags elements [("foo", foo_tagged)] 0%nat true (heap_with {["foo"; "baz"]})
      = Ok (strict, h') /\
    quiet `sublist_of` strict.
Proof.
  exact (validate_tags_flag_sublist elements elements_perm [("foo", foo_tagged)] 0%nat
           (PySet {["foo"; "baz"]}) (heap_with {["foo"; "baz"]}) (heap_with_lookup _)).
Defined.

Lemma validate_tags_error_count_witness :
  exists (errors : list string) (h' : heap),
    validate_tags elements [("foo", foo_tagged)] 0%nat true (heap_with {["foo"; "baz"]})
      = Ok (errors, h') /\
    (length errors
     <= length [("foo", foo_tagged)]
        + size (elems (PySet {["foo"; "baz"]}) ∖ keys [("foo", foo_tagged)]))%nat.
Proof.
  exact (validate_tags_error_count elements elements_perm [("foo", foo_tagged)] 0%nat true
           (PySet {["foo"; "baz"]}) (heap_with {["foo"; "baz"]}) (heap_with_lookup _)).
Defined.

End ValidatorScenarios.

(** ** More of the matcher: [TAG_MATCHER] *)

Lemma length_append (a b : string) :
  String.length (a +:+ b) = (String.length a + String.length b)%nat.
Proof.
  induction a as [|x a IH]; [reflexivity|].
  change (S (String.length (a +:+ b)) = S (String.length a + String.length b)).
  by rewrite IH.
Qed.

Lemma contains_app (c : ascii) (a b : string) :
  Py.contains c (a +:+ b) = Py.contains c a || Py.contains c b.
Proof.
  induction a as [|x a IH]; [reflexivity|].
  change (Ascii.eqb c x || Py.contains c (a +:+ b)
          = Ascii.eqb c x || Py.contains c a || Py.contains c b).
  by rewrite IH, orb_assoc.
Qed.

Lemma after_prefix_app (p s u : string) : Py.after_prefix p s = Some u <-> s = p +:+ u.
Proof.
  revert s. induction p as [|a p IH]; intros s.
  - cbn. split; [by intros [= ->] | by intros ->].
  - destruct s as [|b s]; cbn [Py.after_prefix]; [by split|].
    change (String a p +:+ u) with (String a (p +:+ u)).
    destruct (Ascii.eqb_spec a b) as [->|Hne].
    + rewrite IH. split; [by intros -> | by intros [= ->]].
    + split; [discriminate | by intros [= <- _]].
Qed.

Module TagMatcherFacts.
Import Re ReFacts.

Lemma star_any_ext {R : Type} (k k' : mstate -> option R) (s : string) :
  (forall st, k st = k' st) ->
  forall p c, star_any p s c k = star_any p s c k'.
Proof.
  intros Hk. induction s as [|a s IH]; intros p c; cbn [star_any]; [apply Hk|].
  destruct (Ascii.eqb a Py.LF); [apply Hk|]. by rewrite IH, Hk.
Qed.

(** [.*] gives up only when what follows fails wherever it could stop. *)
Lemma star_any_none {R : Type} (k : mstate -> option R) (s : string) :
  forall p c, star_any p s c k = None ->
    forall w s', s = w +:+ s' -> Py.contains Py.LF w = false ->
      k (MState (p + String.length w) s' c) = None.
Proof.
  induction s as [|a s IH]; intros p c Hnone w s' Hs Hw.
  - destruct w; [|discriminate]. change (EmptyString = s') in Hs. subst s'.
    cbn [String.length]. by rewrite Nat.add_0_r.
  - cbn [star_any] in Hnone. destruct w as [|x w].
    + change (String a s = s') in Hs. subst s'. cbn [String.length]. rewrite Nat.add_0_r.
      destruct (Ascii.eqb a Py.LF); [exact Hnone|].
      by destruct (star_any (S p) s c k).
    + injection Hs as <- ->. cbn [Py.contains] in Hw.
      apply orb_false_iff in Hw as [Ha Hw]. rewrite Ascii.eqb_sym in Ha. rewrite Ha in Hnone.
      destruct (star_any (S p) (w +:+ s') c k) eqn:Hdeep; [discriminate|].
      cbn [String.length]. rewrite Nat.add_succ_r.
      by apply (IH (S p) c Hdeep w s').
Qed.

(** [.*] stops at the last place where what follows succeeds. *)
Lemma star_any_some {R : Type} (k : mstate -> option R) (s : string) (res : R) :
  forall p c, star_any p s c k = Some res ->
    exists w s',
      s = w +:+ s' /\ Py.contains Py.LF w = false /\
      k (MState (p + String.length w) s' c) = Some res /\
      (forall w2 s'', w2 <> EmptyString -> s' = w2 +:+ s'' ->
                      Py.contains Py.LF w2 = false ->
                      k (MState (p + String.length w + String.length w2) s'' c) = None).
Proof.
  induction s as [|a s IH]; intros p c Hsome.
  - exists EmptyString, EmptyString. cbn [star_any] in Hsome.
    cbn [String.length]. rewrite Nat.add_0_r. repeat split; [done|].
    intros [|x w2] s'' Hne Hs _; [done | discriminate].
  - cbn [star_any] in Hsome.
    assert (Hstay : k (MState p (String a s) c) = Some res ->
              (forall w2 s'', w2 <> EmptyString -> String a s = w2 +:+ s'' ->
                              Py.contains Py.LF w2 = false ->
                              k (MState (p + String.length w2) s'' c) = None) ->
              exists w s',
                String a s = w +:+ s' /\ Py.contains Py.LF w = false /\
                k (MState (p + String.length w) s' c) = Some res /\
                (forall w2 s'', w2 <> EmptyString -> s' = w2 +:+ s'' ->
                                Py.contains Py.LF w2 = false ->
                                k (MState (p + String.length w + String.length w2) s'' c)
                                = None)).
    { intros Hk Hmax. exists EmptyString, (String a s).
      cbn [String.length]. rewrite Nat.add_0_r. repeat split; done. }
    destruct (Ascii.eqb a Py.LF) eqn:Ha.
    + apply Hstay; [exact Hsome|].
      intros [|x w2] s'' Hne Hs Hw; [done|]. injection Hs as <- _.
      cbn [Py.contains] in Hw. rewrite Ascii.eqb_sym, Ha in Hw. discriminate Hw.
    + destruct (star_any (S p) s c k) as [res'|] eqn:Hdeep.
      * injection Hsome as ->.
        destruct (IH (S p) c Hdeep) as (w & s' & -> & Hw & Hk & Hmax).
        exists (String a w), s'. split; [reflexivity|]. split.
        { cbn [Py.contains]. by rewrite Ascii.eqb_sym, Ha, Hw. }
        cbn [String.length]. rewrite Nat.add_succ_r. by split.
      * apply Hstay; [exact Hsome|].
        intros [|x w2] s'' Hne Hs Hw; [done|]. injection Hs as <- ->.
        cbn [Py.contains] in Hw. apply orb_false_iff in Hw as [_ Hw].
        cbn [String.length]. rewrite Nat.add_succ_r.
        by apply (star_any_none k _ (S p) c Hdeep w2 s'').
Qed.

(** A literal in front of a pattern. *)
Lemma rmatch_Lit {R : Type} (lit : string) (r : regex) (k : mstate -> option R) :
  forall st,
    rmatch (Lit lit r) st k
    = match Py.after_prefix lit (rest st) with
      | Some u => rmatch r (MState (pos st + String.length lit) u (caps st)) k
      | None => None
      end.
Proof.
  induction lit as [|a lit IH]; intros [p s c].
  - cbn [Lit Py.after_prefix rest pos caps String.length]. by rewrite Nat.add_0_r.
  - cbn [Lit].
    change (rmatch (Seq (Chr a) (Lit lit r)) (MState p s c) k)
      with (rmatch (Chr a) (MState p s c) (fun st' => rmatch (Lit lit r) st' k)).
    cbn [rmatch rest pos caps Py.after_prefix]. destruct s as [|b s]; [reflexivity|].
    destruct (Ascii.eqb a b); [|reflexivity].
    rewrite IH. cbn [advance rest pos caps String.length]. by rewrite Nat.add_succ_r.
Qed.

(** [TAG_MATCHER] on a line: [.*], then [refs_tags_here]. *)
Lemma exec_TAG_MATCHER (text : string) :
  exec TAG_MATCHER_regex text = star_any 0 text [] refs_tags_here.
Proof.
  unfold exec, TAG_MATCHER_regex.
  change (rmatch (Seq Bol (Seq (Star Any) ?r)) (MState 0 text []) ?k)
    with (rmatch (Star Any) (MState 0 text []) (fun st' => rmatch r st' k)).
  rewrite rmatch_star_any. cbn [pos rest caps].
  apply star_any_ext. intros st. rewrite rmatch_Lit.
  unfold refs_tags_here. destruct (Py.after_prefix _ _) as [u|]; [|reflexivity].
  by rewrite group_star_eol.
Qed.

End TagMatcherFacts.

Lemma startswith_after_prefix (p s : string) :
  Py.startswith p s = true <-> exists u, Py.after_prefix p s = Some u.
Proof.
  revert s. induction p as [|a p IH]; intros s; cbn [Py.startswith Py.after_prefix].
  - split; eauto.
  - destruct s as [|b s]; [split; [discriminate | by intros [? ?]]|].
    destruct (Ascii.eqb a b); cbn [andb]; [apply IH | split; [discriminate | by intros [? ?]]].
Qed.

(** [needle in s]: [s] has [needle] somewhere. *)
Lemma str_in_split (needle s : string) :
  Py.str_in needle s = true <-> exists a b, s = a +:+ needle +:+ b.
Proof.
  induction s as [|c s IH].
  - cbn [Py.str_in]. rewrite orb_false_r, startswith_after_prefix. split.
    + intros [u Hu%after_prefix_app]. by exists EmptyString, u.
    + intros ([|x a] & b & Hs); [|discriminate].
      exists b. by apply after_prefix_app.
  - cbn [Py.str_in]. rewrite orb_true_iff, startswith_after_prefix, IH. split.
    + intros [[u Hu%after_prefix_app]|(a & b & ->)].
      * by exists EmptyString, u.
      * by exists (String c a), b.
    + intros ([|x a] & b & Hs).
      * left. exists b. by apply after_prefix_app.
      * right. injection Hs as _ ->. eauto.
Qed.

Lemma line_rest_app (a b : string) :
  Py.contains Py.LF a = false -> Re.line_rest (a +:+ b) = Re.line_rest b.
Proof.
  induction a as [|x a IH]; [reflexivity|]. cbn [Py.contains].
  intros [Hx Ha]%orb_false_iff.
  change (String x a +:+ b) with (String x (a +:+ b)).
  cbn [Re.line_rest]. rewrite Ascii.eqb_sym, Hx. by apply IH.
Qed.

Lemma line_rest_idempotent (s : string) : Re.line_rest (Re.line_rest s) = Re.line_rest s.
Proof.
  induction s as [|a s IH]; [reflexivity|]. cbn [Re.line_rest].
  destruct (Ascii.eqb a Py.LF) eqn:Ha; [|exact IH]. cbn [Re.line_rest]. by rewrite Ha.
Qed.

Lemma line_rest_newline (s : string) :
  Re.line_rest s <> EmptyString -> Py.contains Py.LF s = true.
Proof.
  induction s as [|a s IH]; [done|]. cbn [Re.line_rest Py.contains].
  rewrite (Ascii.eqb_sym Py.LF a). destruct (Ascii.eqb a Py.LF); [done | exact IH].
Qed.

(** What [tag_of_line] yields: the text after the last [refs/tags/] of the
    line's first run without newline. *)
Lemma tag_of_line_yield (text t : string) :
  tag_of_line text = GYield t ->
  exists w u,
    text = w +:+ "refs/tags/" +:+ u /\ Py.contains Py.LF w = false /\
    Re.at_eol (Re.line_rest u) = true /\ t = Re.line u /\
    Py.str_in "refs/tags/" t = false.
Proof.
  unfold tag_of_line, TAG_MATCHER, Re.compile, pmatch.
  change (seq 1 (Re.ngroups TAG_MATCHER_regex)) with [1%nat].
  rewrite TagMatcherFacts.exec_TAG_MATCHER.
  destruct (Re.star_any 0 text [] refs_tags_here) as [c|] eqn:Hstar; [|discriminate].
  apply TagMatcherFacts.star_any_some in Hstar as (w & s' & -> & Hw & Hk & Hmax).
  unfold refs_tags_here in Hk. cbn [Re.rest Re.caps] in Hk.
  destruct (Py.after_prefix "refs/tags/" s') as [u|] eqn:Hu; [|discriminate].
  destruct (Re.at_eol (Re.line_rest u)) eqn:Heol; [|discriminate].
  injection Hk as <-. cbn. intros [= <-].
  apply after_prefix_app in Hu as ->.
  exists w, u. repeat split; [done..|].
  destruct (Py.str_in "refs/tags/" (Re.line u)) eqn:Hin; [|reflexivity].
  apply str_in_split in Hin as (t1 & t2 & Ht).
  assert (Hno : Py.contains Py.LF ("refs/tags/" +:+ t1) = false).
  { pose proof (line_no_newline u) as Hl. rewrite Ht, contains_app in Hl.
    apply orb_false_iff in Hl as [Hl _]. by rewrite contains_app, Hl. }
  assert (Hsplit : "refs/tags/" +:+ u
                   = ("refs/tags/" +:+ t1) +:+ "refs/tags/" +:+ t2 +:+ Re.line_rest u).
  { rewrite <- (ReFacts.line_app u) at 1. rewrite Ht. by rewrite !append_assoc. }
  assert (Hne : "refs/tags/" +:+ t1 <> EmptyString) by (cbn; discriminate).
  specialize (Hmax _ _ Hne Hsplit Hno).
  unfold refs_tags_here in Hmax. cbn [Re.rest Re.caps] in Hmax.
  assert (Hpre : Py.after_prefix "refs/tags/" ("refs/tags/" +:+ t2 +:+ Re.line_rest u)
                 = Some (t2 +:+ Re.line_rest u)) by by apply after_prefix_app.
  rewrite Hpre, line_rest_app, line_rest_idempotent, Heol in Hmax; [discriminate|].
  pose proof (line_no_newline u) as Hl. rewrite Ht, !contains_app in Hl.
  by apply orb_false_iff in Hl as [_ [_ Hl]%orb_false_iff].
Qed.

(** A line without newline that has [refs/tags/] in it is not skipped. *)
Lemma tag_of_line_complete (text : string) :
  Py.contains Py.LF text = false ->
  Py.str_in "refs/tags/" text = true ->
  exists t, tag_of_line text = GYield t.
Proof.
  intros Hnl (a & b & ->)%str_in_split.
  unfold tag_of_line, TAG_MATCHER, Re.compile, pmatch.
  change (seq 1 (Re.ngroups TAG_MATCHER_regex)) with [1%nat].
  rewrite TagMatcherFacts.exec_TAG_MATCHER.
  rewrite !contains_app in Hnl.
  apply orb_false_iff in Hnl as [Ha [_ Hb]%orb_false_iff].
  destruct (Re.star_any 0 (a +:+ "refs/tags/" +:+ b) [] refs_tags_here) as [c|] eqn:Hstar.
  - apply TagMatcherFacts.star_any_some in Hstar as (w & s' & _ & _ & Hk & _).
    unfold refs_tags_here in Hk. destruct (Py.after_prefix _ _); [|discriminate].
    destruct (Re.at_eol _); [|discriminate]. injection Hk as <-. cbn. eauto.
  - pose proof (TagMatcherFacts.star_any_none _ _ _ _ Hstar a ("refs/tags/" +:+ b)
                  eq_refl Ha) as Hk.
    unfold refs_tags_here in Hk. cbn [Re.rest Re.caps] in Hk.
    assert (Hpre : Py.after_prefix "refs/tags/" ("refs/tags/" +:+ b) = Some b)
      by by apply after_prefix_app.
    rewrite Hpre, (line_rest_no_newline b Hb) in Hk. discriminate Hk.
Qed.

(** ** [str.splitlines] *)

Lemma contains_string_of_list (c : ascii) (l : list ascii) :
  Py.contains c (string_of_list_ascii l) = existsb (Ascii.eqb c) l.
Proof. induction l as [|x l IH]; [reflexivity|]. cbn. by rewrite IH. Qed.

Lemma existsb_rev_eq {A : Type} (f : A -> bool) (l : list A) :
  existsb f (rev l) = existsb f l.
Proof.
  induction l as [|x l IH]; [reflexivity|]. cbn [rev existsb].
  rewrite existsb_app, IH. cbn [existsb]. rewrite orb_false_r. apply orb_comm.
Qed.

Lemma not_boundary_not_newline (c : ascii) :
  Py.line_boundary c = false -> Ascii.eqb Py.LF c = false.
Proof.
  intros Hc. destruct (Ascii.eqb_spec Py.LF c) as [<-|]; [discriminate Hc | reflexivity].
Qed.

Lemma splitlines_from_no_newline (n : nat) :
  forall (s : string) (cur : list ascii),
    (String.length s <= n)%nat ->
    existsb (Ascii.eqb Py.LF) cur = false ->
    forall line, line ∈ Py.splitlines_from cur s -> Py.contains Py.LF line = false.
Proof.
  assert (Hcur : forall cur, existsb (Ascii.eqb Py.LF) cur = false ->
                   Py.contains Py.LF (string_of_list_ascii (rev cur)) = false).
  { intros cur Hc. by rewrite contains_string_of_list, existsb_rev_eq. }
  induction n as [|n IH]; intros s cur Hlen Hc line Hin.
  - destruct s; [|cbn in Hlen; lia]. cbn [Py.splitlines_from] in Hin.
    destruct cur; [by apply elem_of_nil in Hin|].
    apply list_elem_of_singleton in Hin as ->. by apply Hcur.
  - destruct s as [|c s].
    { cbn [Py.splitlines_from] in Hin. destruct cur; [by apply elem_of_nil in Hin|].
      apply list_elem_of_singleton in Hin as ->. by apply Hcur. }
    cbn [String.length] in Hlen. cbn [Py.splitlines_from] in Hin.
    destruct (Py.line_boundary c) eqn:Hb.
    + apply elem_of_cons in Hin as [->|Hin]; [by apply Hcur|].
      destruct (Ascii.eqb c Py.CR); [|by apply (IH s []); [lia|..]].
      destruct s as [|d s]; [by apply (IH EmptyString []); [cbn; lia|..]|].
      destruct (Ascii.eqb d Py.LF).
      * apply (IH s []); [cbn [String.length] in Hlen; lia|done..].
      * by apply (IH (String d s) []); [lia|..].
    + apply (IH s (c :: cur)); [lia| |done].
      cbn [existsb]. by rewrite Hc, (not_boundary_not_newline c Hb).
Qed.

(** No line of [splitlines] has a newline in it. *)
Lemma splitlines_no_newline (s line : string) :
  line ∈ Py.splitlines s -> Py.contains Py.LF line = false.
Proof. by apply (splitlines_from_no_newline (String.length s) s []). Qed.

(** Only the empty text has no lines. *)
Lemma splitlines_from_nil (n : nat) :
  forall (s : string) (cur : list ascii),
    (String.length s <= n)%nat ->
    Py.splitlines_from cur s = [] -> s = EmptyString /\ cur = [].
Proof.
  induction n as [|n IH]; intros s cur Hlen Hnil.
  - destruct s; [|cbn in Hlen; lia]. cbn in Hnil. by destruct cur.
  - destruct s as [|c s]; [cbn in Hnil; by destruct cur|].
    cbn [String.length] in Hlen. cbn [Py.splitlines_from] in Hnil.
    destruct (Py.line_boundary c); [discriminate|].
    apply IH in Hnil as [_ ?]; [discriminate | lia].
Qed.

Lemma splitlines_nil (s : string) : Py.splitlines s = [] <-> s = EmptyString.
Proof.
  split; [|by intros ->].
  intros H. by apply (splitlines_from_nil (String.length s) s []) in H as [? _].
Qed.

(** ** More of the fetcher and of the resolver *)

Lemma find_tag_found (version : string) (regex : option Pattern) (steps : list gen_step)
    (fin : option exn) (t : string) :
  (find_tag version regex steps fin).2 = Ok (Some t) ->
  t ∈ yields steps /\ _normalize_tag t regex = Ok (Some version).
Proof.
  induction steps as [|[t'|e] steps IH].
  - cbn. destruct fin; discriminate.
  - cbn [find_tag]. rewrite yields_yield.
    destruct (_normalize_tag t' regex) as [e|v] eqn:Hn; [discriminate|].
    case_bool_decide as Hv.
    + intros [= <-]. subst v. split; [apply list_elem_of_here | exact Hn].
    + intros H. apply IH in H as [Hin Hnorm]. split; [by apply list_elem_of_further | done].
  - rewrite find_tag_do, yields_do. exact IH.
Qed.

Lemma find_tag_raises (version : string) (regex : option Pattern) (steps : list gen_step)
    (fin : option exn) (e : exn) :
  (find_tag version regex steps fin).2 = Raise e ->
  fin = Some e \/ exists t, t ∈ yields steps /\ _normalize_tag t regex = Raise e.
Proof.
  induction steps as [|[t'|e'] steps IH].
  - cbn. destruct fin; [intros [= <-]; by left | discriminate].
  - cbn [find_tag]. rewrite yields_yield.
    destruct (_normalize_tag t' regex) as [e'|v] eqn:Hn.
    + intros [= <-]. right. exists t'. split; [apply list_elem_of_here | exact Hn].
    + case_bool_decide as Hv; [discriminate|].
      intros H. apply IH in H as [?|(t & Hin & Ht)]; [by left|].
      right. exists t. split; [by apply list_elem_of_further | done].
  - rewrite find_tag_do, yields_do. exact IH.
Qed.

(** The loop lets a first part of the generator's events happen. *)
Lemma find_tag_prefix (version : string) (regex : option Pattern) (steps : list gen_step)
    (fin : option exn) :
  exists post, events_of steps = (find_tag version regex steps fin).1 ++ post.
Proof.
  induction steps as [|[t'|e'] steps IH].
  - exists []. cbn. by destruct fin.
  - cbn [find_tag]. rewrite events_of_yield.
    destruct (_normalize_tag t' regex) as [e'|v]; [by exists (events_of steps)|].
    case_bool_decide as Hv; [by exists (events_of steps) | exact IH].
  - rewrite find_tag_do, events_of_do. destruct IH as [post ->]. by exists post.
Qed.

Lemma normalize_raises (t : string) (regex : option Pattern) (e : exn) :
  _normalize_tag t regex = Raise e ->
  e = IndexError "no such group" /\ exists p, regex = Some p /\ groups p = 0%nat.
Proof.
  unfold _normalize_tag, group1, Raise, Ok. destruct regex as [p|].
  - change (default TAG_VERSION_REGEX (Some p)) with p.
    destruct (pmatch p t); [|discriminate].
    destruct (groups p) eqn:Hg; cbn; [|discriminate]. intros [= <-]. eauto.
  - change (default TAG_VERSION_REGEX None) with TAG_VERSION_REGEX.
    destruct (pmatch TAG_VERSION_REGEX t); discriminate.
Qed.

Lemma tag_of_line_not_spawn (lines : list string) :
  List.filter is_spawn (events_of (map tag_of_line lines)) = [].
Proof.
  induction lines as [|line lines IH]; [reflexivity|]. cbn [map].
  unfold tag_of_line at 1. destruct (pmatch TAG_MATCHER line) as [[|[t|] m]|];
    rewrite ?events_of_yield, ?events_of_do; cbn [List.filter is_spawn]; exact IH.
Qed.


Lemma elem_of_yields (t : string) (steps : list gen_step) :
  t ∈ yields steps <-> GYield t ∈ steps.
Proof.
  unfold yields. rewrite list_elem_of_omap. split.
  - intros ([t'|e] & Hin & [= <-]). exact Hin.
  - intros Hin. by exists (GYield t).
Qed.

Lemma elem_of_events_of (e : event) (steps : list gen_step) :
  e ∈ events_of steps <-> GDo e ∈ steps.
Proof.
  unfold events_of. rewrite list_elem_of_omap. split.
  - intros ([t'|e'] & Hin & [= <-]). exact Hin.
  - intros Hin. by exists (GDo e).
Qed.

Lemma tag_of_line_event (text : string) (e : event) :
  tag_of_line text = GDo e ->
  e = EvLog (LogRecord DEBUG (mlog ++ [("func", FStr "_get_tags")])
               ("git ls-remote output line skipped: " +:+ text)).
Proof.
  unfold tag_of_line. destruct (pmatch TAG_MATCHER text) as [[|[t|] m]|];
    intros H; try discriminate H; by injection H as <-.
Qed.

Section FetcherFacts.

Variable re_compile : string -> compiled.
Variable subprocess_exec : list string -> list (string * string) -> result Completed.
Variable decode_utf8 : string -> option string.

Local Abbreviation get_tags := (_get_tags subprocess_exec decode_utf8).
Local Abbreviation resolve := (_get_collection_tags re_compile subprocess_exec decode_utf8).

(** The run of the generator when the process ends with status 0 and its
    output decodes. *)
Lemma get_tags_output (repository : string) (proc : Completed) (text : string) :
  subprocess_exec (git_args repository) git_env = Ok proc ->
  returncode proc = 0 ->
  decode_utf8 (stdout proc) = Some text ->
  get_tags repository
  = MkRun ([GDo (running_log repository); GDo (EvSpawn (git_args repository) git_env);
            GDo (ran_log proc)] ++
           match Py.splitlines text with
           | [] => [GDo (no_tags_warning repository)]
           | tags => map tag_of_line tags
           end) None.
Proof.
  intros Hexec Hrc Hdec. unfold _get_tags. cbv zeta.
  rewrite Hexec. unfold Ok. cbv iota beta.
  replace (returncode proc =? 0) with true by (symmetry; by apply Z.eqb_eq).
  rewrite Hdec. cbn [negb].
  by destruct (Py.splitlines text).
Qed.

(** Tags are yielded in that case only. *)
Lemma get_tags_yields_inv (repository t : string) :
  t ∈ yields (g_steps (get_tags repository)) ->
  exists proc text,
    subprocess_exec (git_args repository) git_env = Ok proc /\
    returncode proc = 0 /\
    decode_utf8 (stdout proc) = Some text /\
    GYield t ∈ map tag_of_line (Py.splitlines text).
Proof.
  unfold _get_tags. cbv zeta.
  destruct (subprocess_exec _ _) as [e|proc] eqn:Hexec; [by intros ?%elem_of_nil|].
  destruct (returncode proc =? 0) eqn:Hrc; cbn [negb]; [|by intros ?%elem_of_nil].
  apply Z.eqb_eq in Hrc.
  destruct (decode_utf8 _) as [text|] eqn:Hdec; [|by intros ?%elem_of_nil].
  intros Hin. exists proc, text. repeat split; [done..|].
  destruct (Py.splitlines text) as [|line lines]; [by apply elem_of_nil in Hin|].
  cbn [g_steps] in Hin. rewrite yields_app in Hin.
  apply elem_of_app in Hin as [Hin|Hin]; [by apply elem_of_nil in Hin|].
  by apply elem_of_yields.
Qed.

(** The two steps every run starts with; no process is started after
    them. *)
Lemma get_tags_spawns_once_aux (repository : string) :
  exists rest,
    g_steps (get_tags repository)
    = GDo (running_log repository) :: GDo (EvSpawn (git_args repository) git_env) :: rest /\
    List.filter is_spawn (events_of rest) = [].
Proof.
  unfold _get_tags. cbv zeta.
  destruct (subprocess_exec _ _) as [e|proc]; [eexists; split; reflexivity|].
  destruct (negb _); [eexists; split; reflexivity|].
  destruct (decode_utf8 _) as [text|]; [|eexists; split; reflexivity].
  destruct (Py.splitlines text) as [|line lines]; [eexists; split; reflexivity|].
  exists (GDo (ran_log proc) :: map tag_of_line (line :: lines)).
  split; [reflexivity|].
  rewrite events_of_do. cbn [List.filter is_spawn ran_log]. apply tag_of_line_not_spawn.
Qed.

(** X10.  Every run of [_get_tags] begins by logging the command and
    starting the process [git ls-remote --refs --tags <repository>] with
    the environment [GIT_TERMINAL_PROMPT=0] and nothing else in it;
    whatever the outcome, it starts no other process. *)
Theorem get_tags_spawns_once (repository : string) :
  let args := ["git"; "ls-remote"; "--refs"; "--tags"; repository] in
  let env := [("GIT_TERMINAL_PROMPT", "0")] in
  (exists rest,
      g_steps (get_tags repository)
      = GDo (EvLog (LogRecord DEBUG
                      [("mod", FStr "antsibull.tagging"); ("func", FStr "_get_tags")]
                      ("Running " +:+ Py.repr_tuple args)))
          :: GDo (EvSpawn args env) :: rest) /\
  List.filter is_spawn (events_of (g_steps (get_tags repository))) = [EvSpawn args env].
Proof.
  intros args env.
  destruct (get_tags_spawns_once_aux repository) as (rest & -> & Hrest).
  split; [by exists rest|].
  rewrite !events_of_do. cbn [List.filter is_spawn running_log]. by rewrite Hrest.
Qed.

(** X11.  When the process ends with status 0 and its output decodes, the
    generator ends without an exception; it warns that the repository has
    no tags exactly when the output is empty, and then it yields nothing. *)
Theorem get_tags_no_output (repository : string) (proc : Completed) (text : string)
    (Hexec : subprocess_exec (git_args repository) git_env = Ok proc)
    (Hrc : returncode proc = 0)
    (Hdec : decode_utf8 (stdout proc) = Some text) :
  g_end (get_tags repository) = None /\
  (no_tags_warning repository ∈ events_of (g_steps (get_tags repository))
   <-> text = EmptyString) /\
  (text = EmptyString -> yields (g_steps (get_tags repository)) = []).
Proof.
  rewrite (get_tags_output repository proc text Hexec Hrc Hdec). cbn [g_end g_steps].
  split; [reflexivity|].
  destruct (Py.splitlines text) as [|line lines] eqn:Hlines.
  - apply splitlines_nil in Hlines as ->. split; [|by intros _].
    split; [done|]. intros _. rewrite events_of_app.
    apply elem_of_app. right. apply list_elem_of_here.
  - assert (Hne : text <> EmptyString).
    { intros ->. discriminate Hlines. }
    split; [|done]. split; [|done]. intros Hin.
    rewrite events_of_app in Hin. apply elem_of_app in Hin as [Hin|Hin].
    + cbn in Hin. unfold no_tags_warning, running_log, ran_log in Hin.
      repeat (apply elem_of_cons in Hin as [Hin|Hin]; [discriminate Hin|]).
      by apply elem_of_nil in Hin.
    + apply elem_of_events_of, list_elem_of_fmap in Hin as (l0 & Hl0 & _).
      symmetry in Hl0. apply tag_of_line_event in Hl0. discriminate Hl0.
Qed.

(** X12.  Every tag [_get_tags] yields is what follows the last
    [refs/tags/] of a line of the process's output: it comes from such a
    line, has no newline in it, and has no [refs/tags/] in it. *)
Theorem get_tags_yields_sound (repository t : string)
    (Hin : t ∈ yields (g_steps (get_tags repository))) :
  exists proc text line prefix,
    subprocess_exec (git_args repository) git_env = Ok proc /\
    returncode proc = 0 /\
    decode_utf8 (stdout proc) = Some text /\
    line ∈ Py.splitlines text /\
    line = prefix +:+ "refs/tags/" +:+ t /\
    Py.contains Py.LF t = false /\
    Py.str_in "refs/tags/" t = false.
Proof.
  apply get_tags_yields_inv in Hin as (proc & text & Hexec & Hrc & Hdec & Hin).
  apply list_elem_of_fmap in Hin as (line & Hline & Hlines). symmetry in Hline.
  pose proof (splitlines_no_newline _ _ Hlines) as Hnl.
  apply tag_of_line_yield in Hline as (w & u & -> & Hw & Heol & -> & Hlast).
  rewrite !contains_app in Hnl.
  apply orb_false_iff in Hnl as [_ [_ Hu]%orb_false_iff].
  assert (Hline : Re.line u = u) by by apply line_rest_empty, line_rest_no_newline.
  rewrite Hline in *.
  exists proc, text, (w +:+ "refs/tags/" +:+ u), w. by repeat split.
Qed.

(** X13.  No line with [refs/tags/] is skipped: when the process ends with
    status 0 and its output decodes, every line of the output that has
    [refs/tags/] in it gives a tag that is yielded and that ends the
    line. *)
Theorem get_tags_yields_complete (repository : string) (proc : Completed)
    (text line : string)
    (Hexec : subprocess_exec (git_args repository) git_env = Ok proc)
    (Hrc : returncode proc = 0)
    (Hdec : decode_utf8 (stdout proc) = Some text)
    (Hline : line ∈ Py.splitlines text)
    (Hrefs : Py.str_in "refs/tags/" line = true) :
  exists t prefix,
    t ∈ yields (g_steps (get_tags repository)) /\
    line = prefix +:+ "refs/tags/" +:+ t.
Proof.
  pose proof (splitlines_no_newline _ _ Hline) as Hnl.
  destruct (tag_of_line_complete line Hnl Hrefs) as [t Ht].
  pose proof Ht as Hy.
  apply tag_of_line_yield in Hy as (w & u & Hl & Hw & Heol & Htu & _).
  assert (Hu : Re.line u = u).
  { apply line_rest_empty, line_rest_no_newline.
    rewrite Hl, !contains_app in Hnl.
    by apply orb_false_iff in Hnl as [_ [_ Hu]%orb_false_iff]. }
  exists t, w. split; [|by rewrite Htu, Hu].
  rewrite (get_tags_output repository proc text Hexec Hrc Hdec). cbn [g_steps].
  rewrite yields_app. apply elem_of_app. right.
  destruct (Py.splitlines text) as [|l0 lines] eqn:Hlines; [by apply elem_of_nil in Hline|].
  apply elem_of_yields. rewrite <- Ht. by apply list_elem_of_fmap_2.
Qed.

End FetcherFacts.

Section MoreResolverFacts.

Variable re_compile : string -> compiled.
Variable subprocess_exec : list string -> list (string * string) -> result Completed.
Variable decode_utf8 : string -> option string.

Local Abbreviation get_tags := (_get_tags subprocess_exec decode_utf8).
Local Abbreviation resolve := (_get_collection_tags re_compile subprocess_exec decode_utf8).

(** The four ways of the resolver: no repository, a pattern on which
    [re.compile] raises [re.error], one on which it raises something else,
    or the loop over the fetched tags. *)
Lemma resolve_cases (version : string) (meta_data : CollectionMetadata) (name : string) :
  let data := MkTagData version (meta_repository meta_data) None (directory_of meta_data) in
  (Py.truthy (meta_repository meta_data) = false /\
   exists rec, resolve version meta_data name = ([EvLog rec], Ok data)) \/
  (exists r, meta_repository meta_data = Some r /\ Py.truthy (Some r) = true /\
             compiled_regex re_compile meta_data = None /\
             compile_escapes re_compile meta_data = None /\
             exists rec, resolve version meta_data name = ([EvLog rec], Ok data)) \/
  (exists r e, meta_repository meta_data = Some r /\ Py.truthy (Some r) = true /\
               compiled_regex re_compile meta_data = None /\
               compile_escapes re_compile meta_data = Some e /\
               resolve version meta_data name = ([], Raise e)) \/
  (exists r regex,
      meta_repository meta_data = Some r /\ Py.truthy (Some r) = true /\
      compiled_regex re_compile meta_data = Some regex /\
      compile_escapes re_compile meta_data = None /\
      resolve version meta_data name
      = ((find_tag version regex (g_steps (get_tags r)) (g_end (get_tags r))).1,
         match (find_tag version regex (g_steps (get_tags r)) (g_end (get_tags r))).2 with
         | inl e => Raise e
         | inr o => Ok (MkTagData version (Some r) o (directory_of meta_data))
         end)).
Proof.
  intros data.
  destruct (Py.truthy (meta_repository meta_data)) eqn:Hrepo.
  - right. destruct (truthy_inv _ Hrepo) as (a & r' & Hr).
    assert (Ht : Py.truthy (Some (String a r')) = true) by reflexivity.
    assert (Hfetch : forall regex,
               compiled_regex re_compile meta_data = Some regex ->
               compile_escapes re_compile meta_data = None ->
               exists r regex,
                 meta_repository meta_data = Some r /\ Py.truthy (Some r) = true /\
                 compiled_regex re_compile meta_data = Some regex /\
                 compile_escapes re_compile meta_data = None /\
                 resolve version meta_data name
                 = ((find_tag version regex (g_steps (get_tags r)) (g_end (get_tags r))).1,
                    match (find_tag version regex (g_steps (get_tags r))
                             (g_end (get_tags r))).2 with
                    | inl e => Raise e
                    | inr o => Ok (MkTagData version (Some r) o (directory_of meta_data))
                    end)).
    { intros regex Hrx Hesc. exists (String a r'), regex.
      split; [exact Hr|]. split; [exact Ht|]. split; [exact Hrx|]. split; [exact Hesc|].
      by apply resolve_fetch. }
    destruct (Py.truthy (meta_tag_version_regex meta_data)) eqn:Hpat.
    + destruct (re_compile (default EmptyString (meta_tag_version_regex meta_data)))
        as [p|err|e] eqn:Hcompile.
      * right. right.
        apply (Hfetch (Some p)); unfold compiled_regex, compile_escapes;
          by rewrite ?Hrepo, Hpat, Hcompile.
      * left. exists (String a r'). split; [exact Hr|]. split; [exact Ht|].
        split; [unfold compiled_regex; by rewrite Hpat, Hcompile|].
        split; [unfold compile_escapes; by rewrite Hrepo, Hpat, Hcompile|].
        unfold _get_collection_tags. rewrite Hr, Hpat, Hcompile.
        fold (directory_of meta_data). unfold data. rewrite Hr. eauto.
      * right. left. exists (String a r'), e. split; [exact Hr|]. split; [exact Ht|].
        split; [unfold compiled_regex; by rewrite Hpat, Hcompile|].
        split; [unfold compile_escapes; by rewrite Hrepo, Hpat, Hcompile|].
        unfold _get_collection_tags. by rewrite Hr, Hpat, Hcompile.
    + right. right.
      apply (Hfetch None); unfold compiled_regex, compile_escapes;
        by rewrite ?Hrepo, Hpat.
  - left. split; [reflexivity|]. unfold _get_collection_tags.
    fold (directory_of meta_data).
    destruct (meta_repository meta_data) as [[|a r']|]; [|discriminate|]; eauto.
Qed.

(** X14.  The record the resolver returns has the version, the repository
    and the collection directory it was given (the directory only when it
    is not empty), and its tag, when it has one, is not made up: it is one
    of the tags the fetcher yields for the repository, and it normalizes to
    the version with the pattern of the collection. *)
Theorem get_collection_tags_record (expected : string) (meta_data : CollectionMetadata)
    (name : string) (tr : list event) (d : CollectionTagData)
    (Hrun : resolve expected meta_data name = (tr, Ok d)) :
  version d = expected /\
  repository d = meta_repository meta_data /\
  collection_directory d = directory_of meta_data /\
  (forall t, tag d = Some t ->
     exists r regex,
       meta_repository meta_data = Some r /\
       compiled_regex re_compile meta_data = Some regex /\
       t ∈ yields (g_steps (get_tags r)) /\
       _normalize_tag t regex = Ok (Some expected)).
Proof.
  destruct (resolve_cases expected meta_data name)
    as [(_ & rec & Hres)
       |[(r & _ & _ & _ & _ & rec & Hres)
        |[(r & e & _ & _ & _ & _ & Hres)
         |(r & regex & Hr & _ & Hrx & _ & Hres)]]];
    rewrite Hres in Hrun.
  - injection Hrun as <- <-. by repeat split.
  - injection Hrun as <- <-. by repeat split.
  - discriminate Hrun.
  - destruct (find_tag expected regex _ _) as [tr' [e|o]] eqn:Hfind; [discriminate|].
    injection Hrun as <- <-. cbn [version repository collection_directory tag].
    repeat split; [done|].
    intros t ->. exists r, regex. repeat split; [done..| |].
    + eapply (find_tag_found expected regex). by rewrite Hfind.
    + eapply (find_tag_found expected regex). by rewrite Hfind.
Qed.

(** X15.  The resolver raises in three cases only, each for a collection
    with a repository: [re.compile] raised something that is not an
    [re.error], which [except re.error] does not catch; the generator ended
    with an exception (the process could not be started, or its output
    could not be decoded); or the pattern of the collection compiled and
    has no group, which makes [match.group(1)] raise [IndexError].  In the
    first case the exception is raised before anything is logged or
    started. *)
Theorem get_collection_tags_raises (expected : string) (meta_data : CollectionMetadata)
    (name : string) :
  (forall tr e,
      resolve expected meta_data name = (tr, Raise e) ->
      exists r,
        meta_repository meta_data = Some r /\
        (compile_escapes re_compile meta_data = Some e \/
         g_end (get_tags r) = Some e \/
         (e = IndexError "no such group" /\
          exists p, compiled_regex re_compile meta_data = Some (Some p) /\
                    groups p = 0%nat))) /\
  (forall e,
      compile_escapes re_compile meta_data = Some e ->
      resolve expected meta_data name = ([], Raise e)).
Proof.
  destruct (resolve_cases expected meta_data name)
    as [(Hno & rec & Hres)
       |[(r & _ & _ & _ & Hesc & rec & Hres)
        |[(r & e' & Hr & _ & _ & Hesc & Hres)
         |(r & regex & Hr & _ & Hrx & Hesc & Hres)]]];
    rewrite Hres.
  - split; [intros tr e Hrun; discriminate Hrun|].
    intros e He. unfold compile_escapes in He. rewrite Hno in He. discriminate He.
  - split; [intros tr e Hrun; discriminate Hrun|].
    intros e He. rewrite Hesc in He. discriminate He.
  - split.
    + intros tr e Hrun. injection Hrun as _ <-. exists r. split; [exact Hr | by left].
    + intros e He. rewrite Hesc in He. by injection He as <-.
  - split; [|intros e He; rewrite Hesc in He; discriminate He].
    intros tr e Hrun. exists r. split; [exact Hr|]. right.
    destruct (find_tag expected regex _ _) as [tr' [e0|o]] eqn:Hfind; [|discriminate].
    injection Hrun as _ <-.
    destruct (find_tag_raises expected regex (g_steps (get_tags r)) (g_end (get_tags r)) e0)
      as [Hend|(t & _ & Ht)]; [by rewrite Hfind | by left |].
    right. apply normalize_raises in Ht as (-> & p & -> & Hp). eauto.
Qed.

(** X16.  The resolver starts at most one process for a collection: none
    when the repository is absent or the pattern does not compile, and
    otherwise the one of [_get_tags], even when it stops at the first
    tag. *)
Theorem get_collection_tags_spawns (expected : string) (meta_data : CollectionMetadata)
    (name : string) :
  (Py.truthy (meta_repository meta_data) = false \/
   compiled_regex re_compile meta_data = None ->
   List.filter is_spawn (resolve expected meta_data name).1 = []) /\
  (forall r regex,
      meta_repository meta_data = Some r ->
      Py.truthy (Some r) = true ->
      compiled_regex re_compile meta_data = Some regex ->
      List.filter is_spawn (resolve expected meta_data name).1
      = [EvSpawn (git_args r) git_env]).
Proof.
  destruct (resolve_cases expected meta_data name)
    as [(Hno & rec & Hres)
       |[(r & Hr & Ht & Hrx & _ & rec & Hres)
        |[(r & e & Hr & Ht & Hrx & _ & Hres)
         |(r & regex & Hr & Ht & Hrx & _ & Hres)]]];
    rewrite Hres; cbn [fst].
  - split; [done|]. intros r regex Hr Ht _. rewrite Hr, Ht in Hno. discriminate Hno.
  - split; [done|]. intros r' regex _ _ Hrx'. rewrite Hrx in Hrx'. discriminate Hrx'.
  - split; [done|]. intros r' regex _ _ Hrx'. rewrite Hrx in Hrx'. discriminate Hrx'.
  - split.
    { intros [Hno|Hnone]; [rewrite Hr, Ht in Hno; discriminate Hno|].
      rewrite Hrx in Hnone. discriminate Hnone. }
    intros r' regex' Hr' _ _. rewrite Hr in Hr'. injection Hr' as <-.
    destruct (get_tags_spawns_once_aux subprocess_exec decode_utf8 r) as (rest & Hsteps & Hrest).
    rewrite Hsteps, !find_tag_do. cbn [fst List.filter is_spawn running_log]. f_equal.
    destruct (find_tag_prefix expected regex rest (g_end (get_tags r))) as [post Hpost].
    rewrite Hpost, List.filter_app in Hrest. by apply app_eq_nil in Hrest as [? _].
Qed.

(** X17.  With the default pattern the tag of the record is the version
    with one [v] in front, or the version itself when the version does not
    start with [v]. *)
Theorem get_collection_tags_default_tag (expected : string)
    (meta_data : CollectionMetadata) (name : string) (tr : list event)
    (d : CollectionTagData) (t : string)
    (Hdefault : Py.truthy (meta_tag_version_regex meta_data) = false)
    (Hrun : resolve expected meta_data name = (tr, Ok d))
    (Htag : tag d = Some t) :
  t = String "v" expected \/ (t = expected /\ starts_with_v expected = false).
Proof.
  destruct (resolve_cases expected meta_data name)
    as [(_ & rec & Hres)
       |[(r & _ & _ & _ & _ & rec & Hres)
        |[(r & e & _ & _ & _ & _ & Hres)
         |(r & regex & Hr & _ & Hrx & _ & Hres)]]];
    rewrite Hres in Hrun.
  - injection Hrun as _ <-. discriminate Htag.
  - injection Hrun as _ <-. discriminate Htag.
  - discriminate Hrun.
  - unfold compiled_regex in Hrx. rewrite Hdefault in Hrx. injection Hrx as <-.
    destruct (find_tag expected None _ _) as [tr' [e|o]] eqn:Hfind; [discriminate|].
    injection Hrun as _ <-. cbn [tag] in Htag. subst o.
    destruct (find_tag_found expected None (g_steps (get_tags r)) (g_end (get_tags r)) t)
      as [Hin Hnorm]; [by rewrite Hfind|].
    apply get_tags_yields_no_newline in Hin.
    rewrite (normalize_default_no_newline t Hin) in Hnorm. injection Hnorm as Hstrip.
    destruct t as [|a t]; [cbn in Hstrip; subst; by right|].
    cbn [strip_v] in Hstrip. destruct (Ascii.eqb a "v") eqn:Ha.
    + apply Ascii.eqb_eq in Ha. subst. by left.
    + right. subst expected. split; [reflexivity|]. cbn [starts_with_v]. exact Ha.
Qed.

End MoreResolverFacts.

(** ** More of the normalizer *)

(** X18.  The default normalization of any text: take one leading [v] off;
    if what is left is one line, ended or not by one newline, the result is
    that line, without the newline; otherwise the pattern does not match
    and the result is the text itself.  It never raises and is never
    [None]. *)
Theorem normalize_default_closed_form (t : string) :
  _normalize_tag t None
  = Ok (Some (if Re.at_eol (Re.line_rest (strip_v t)) then Re.line (strip_v t) else t)).
Proof. apply normalize_default. Qed.

(** X19.  For a tag without newline the test of the resolver with the
    default pattern holds exactly when the tag is the version with one [v]
    in front, or is the version and does not start with [v]: a version that
    starts with [v] is matched only by a tag with one more [v]. *)
Theorem tag_matches_default (expected t : string)
    (Hnl : Py.contains Py.LF t = false) :
  tag_matches expected None t = true <->
  t = String "v" expected \/ (t = expected /\ starts_with_v expected = false).
Proof.
  unfold tag_matches. rewrite (normalize_default_no_newline t Hnl).
  change (bool_decide (Some (strip_v t) = Some expected) = true <->
          t = String "v" expected \/ (t = expected /\ starts_with_v expected = false)).
  rewrite bool_decide_eq_true. split.
  - intros [= Hstrip]. destruct t as [|a t]; [cbn in Hstrip; subst; by right|].
    cbn [strip_v] in Hstrip. destruct (Ascii.eqb a "v") eqn:Ha.
    + apply Ascii.eqb_eq in Ha. subst. by left.
    + right. subst expected. split; [reflexivity|]. exact Ha.
  - intros [->|[-> Hv]]; [reflexivity|]. by rewrite strip_v_fixed.
Qed.

Lemma tag_matches_default_witness :
  tag_matches "v2" None "vv2" = true <->
  "vv2" = String "v" "v2" \/ ("vv2" = "v2" /\ starts_with_v "v2" = false).
Proof. exact (tag_matches_default "v2" "vv2" eq_refl). Defined.

(** ** Scenarios of the fetcher and of the resolver *)

Section FetcherScenarios.
Import Scenario.

Lemma get_tags_no_output_witness :
  g_end (_get_tags (git_prints EmptyString) decode_ascii foo_repository) = None /\
  (no_tags_warning foo_repository
     ∈ events_of (g_steps (_get_tags (git_prints EmptyString) decode_ascii foo_repository))
   <-> EmptyString = EmptyString) /\
  (EmptyString = EmptyString ->
   yields (g_steps (_get_tags (git_prints EmptyString) decode_ascii foo_repository)) = []).
Proof.
  exact (get_tags_no_output (git_prints EmptyString) decode_ascii foo_repository
           (MkCompleted 0 EmptyString EmptyString) EmptyString eq_refl eq_refl eq_refl).
Defined.

Lemma two_tags_yields :
  yields (g_steps (_get_tags (git_prints two_tags) decode_ascii foo_repository))
  = ["v1.0.0"; "v1.2.0"].
Proof. reflexivity. Qed.

Lemma get_tags_yields_sound_witness :
  exists proc text line prefix,
    git_prints two_tags (git_args foo_repository) git_env = Ok proc /\
    returncode proc = 0 /\
    decode_ascii (stdout proc) = Some text /\
    line ∈ Py.splitlines text /\
    line = prefix +:+ "refs/tags/" +:+ "v1.2.0" /\
    Py.contains Py.LF "v1.2.0" = false /\
    Py.str_in "refs/tags/" "v1.2.0" = false.
Proof.
  assert (Hin : "v1.2.0"
                ∈ yields (g_steps (_get_tags (git_prints two_tags) decode_ascii foo_repository))).
  { rewrite two_tags_yields. apply list_elem_of_further, list_elem_of_here. }
  exact (get_tags_yields_sound (git_prints two_tags) decode_ascii foo_repository "v1.2.0" Hin).
Defined.

Lemma get_tags_yields_complete_witness :
  exists t prefix,
    t ∈ yields (g_steps (_get_tags (git_prints two_tags) decode_ascii foo_repository)) /\
    "9c4d7b8" +:+ Py.chr Py.TAB +:+ "refs/tags/v1.2.0" = prefix +:+ "refs/tags/" +:+ t.
Proof.
  assert (Hline : "9c4d7b8" +:+ Py.chr Py.TAB +:+ "refs/tags/v1.2.0" ∈ Py.splitlines two_tags).
  { apply list_elem_of_further, list_elem_of_here. }
  exact (get_tags_yields_complete (git_prints two_tags) decode_ascii foo_repository
           (MkCompleted 0 two_tags EmptyString) two_tags _ eq_refl eq_refl eq_refl Hline eq_refl).
Defined.

Lemma get_collection_tags_record_witness :
  version foo_tagged = "1.2.0" /\
  repository foo_tagged = meta_repository foo_meta /\
  collection_directory foo_tagged = directory_of foo_meta /\
  (forall t, tag foo_tagged = Some t ->
     exists r regex,
       meta_repository foo_meta = Some r /\
       compiled_regex re_compile_table foo_meta = Some regex /\
       t ∈ yields (g_steps (_get_tags (git_prints two_tags) decode_ascii r)) /\
       _normalize_tag t regex = Ok (Some "1.2.0")).
Proof.
  exact (get_collection_tags_record re_compile_table (git_prints two_tags) decode_ascii
           "1.2.0" foo_meta "foo"
           (_get_collection_tags re_compile_table (git_prints two_tags) decode_ascii
              "1.2.0" foo_meta "foo").1
           foo_tagged eq_refl).
Defined.

(** A pattern without a group, and one whose repeat count is too large
    for [re.compile]. *)
Lemma get_collection_tags_raises_witness :
  (exists r,
     meta_repository foo_meta_groupless = Some r /\
     (compile_escapes re_compile_table foo_meta_groupless
      = Some (IndexError "no such group") \/
      g_end (_get_tags (git_prints two_tags) decode_ascii r)
      = Some (IndexError "no such group") \/
      (IndexError "no such group" = IndexError "no such group" /\
       exists p, compiled_regex re_compile_table foo_meta_groupless = Some (Some p) /\
                 groups p = 0%nat))) /\
  _get_collection_tags re_compile_table (git_prints two_tags) decode_ascii
    "1.2.0" foo_meta_overflow "foo"
  = ([], Raise (OverflowError "the repetition number is too large")).
Proof.
  split.
  - exact (proj1 (get_collection_tags_raises re_compile_table (git_prints two_tags)
                    decode_ascii "1.2.0" foo_meta_groupless "foo")
             (_get_collection_tags re_compile_table (git_prints two_tags) decode_ascii
                "1.2.0" foo_meta_groupless "foo").1
             (IndexError "no such group") eq_refl).
  - exact (proj2 (get_collection_tags_raises re_compile_table (git_prints two_tags)
                    decode_ascii "1.2.0" foo_meta_overflow "foo")
             (OverflowError "the repetition number is too large") eq_refl).
Defined.

Lemma get_collection_tags_spawns_witness :
  List.filter is_spawn
    (_get_collection_tags re_compile_table (git_prints two_tags) decode_ascii
       "1.2.0" foo_meta "foo").1
  = [EvSpawn (git_args foo_repository) git_env] /\
  List.filter is_spawn
    (_get_collection_tags re_compile_table (git_prints two_tags) decode_ascii
       "1.2.0" foo_meta_unclosed "foo").1
  = [].
Proof.
  split.
  - exact (proj2 (get_collection_tags_spawns re_compile_table (git_prints two_tags)
                    decode_ascii "1.2.0" foo_meta "foo")
             foo_repository None eq_refl eq_refl eq_refl).
  - exact (proj1 (get_collection_tags_spawns re_compile_table (git_prints two_tags)
                    decode_ascii "1.2.0" foo_meta_unclosed "foo")
             (or_intror eq_refl)).
Defined.

Lemma get_collection_tags_default_tag_witness :
  "v1.2.0" = String "v" "1.2.0" \/ ("v1.2.0" = "1.2.0" /\ starts_with_v "1.2.0" = false).
Proof.
  exact (get_collection_tags_default_tag re_compile_table (git_prints two_tags) decode_ascii
           "1.2.0" foo_meta "foo"
           (_get_collection_tags re_compile_table (git_prints two_tags) decode_ascii
              "1.2.0" foo_meta "foo").1
           foo_tagged "v1.2.0" eq_refl eq_refl eq_refl).
Defined.

End FetcherScenarios.
